(** * Railway decision-support dashboard: the state store and its adapters

    A shallow embedding of the orchestration core of the dashboard:

    - [lib/types.ts]                the data model,
    - [services/adapterBase.ts]     the transport adapter ([apiFetch] and helpers),
    - [services/auditService.ts], [services/chatbotAdapter.ts],
      [services/predictionAdapter.ts], [services/simulatorAdapter.ts]
                                    the domain adapters,
    - [stores/useStore.ts]          the Zustand store and its actions,
    - [app/api/audit/route.ts]      the in-memory audit endpoint.

    Asynchronous code is embedded as a tree of effects ([Proc]): reads and
    writes of the store, calls into the JavaScript runtime (clock, random
    numbers, environment) and awaited [fetch] calls.  A [World] answers the
    runtime calls and the network requests; [run] executes a tree against a
    world, and [advance]/[settle] execute it one await at a time so that
    several actions can be interleaved on the single event loop. *)

From Stdlib Require Import ZArith QArith Ascii String.
From stdpp Require Import base option list strings gmap pretty.

Close Scope Q_scope.
Local Open Scope string_scope.
Local Open Scope list_scope.

(** ** Data model ([lib/types.ts]) *)

(** JavaScript [number]s are only carried around by the modelled code, never
    computed with; they are represented by rationals. *)
Definition number := Q.

(** Values of type [any] ([AuditLog.details]). *)
#[warnings="-register-all"]
Inductive Json : Type :=
| JNull
| JBool (b : bool)
| JNum (n : number)
| JStr (s : string)
| JArr (items : list Json)
| JObj (fields : list (string * Json)).

(** Property access [o.key] on a JSON object. *)
Fixpoint assoc_lookup (key : string) (fields : list (string * Json)) : option Json :=
  match fields with
  | [] => None
  | (k, v) :: rest => if String.eqb k key then Some v else assoc_lookup key rest
  end.

Definition json_field (key : string) (o : Json) : option Json :=
  match o with
  | JObj fields => assoc_lookup key fields
  | _ => None
  end.

Inductive TrainStatus := OnTime | Delayed | Stopped | AtPlatform.

Record Train := {
  train_id : string;
  train_number : string;
  train_origin : option string;
  train_destination : option string;
  train_scheduledArrival : option string;
  train_scheduledDeparture : option string;
  train_delayMinutes : option number;
  train_status : option TrainStatus;
  train_currentLocation : option string;
  train_capacity : option number;
  train_passengers : option number
}.

Record KpiImpact := {
  delayReduction : number;
  throughput : number;
  safety : string;
  cost : option number;
  passengerImpact : option number
}.

Inductive RiskLevel := RiskLow | RiskMedium | RiskHigh.

Record Alternative := {
  alt_id : string;
  alt_action : string;
  alt_kpis : KpiImpact;
  alt_description : option string;
  alt_estimatedDuration : option number;
  alt_riskLevel : option RiskLevel
}.

Inductive Priority := PLow | PMedium | PHigh | PCritical.
Inductive RecStatus := Pending | Accepted | Rejected | Expired.

Record EstimatedImpact := {
  ei_delayReduction : number;
  ei_costSavings : number;
  ei_passengerBenefit : number
}.

Record Recommendation := {
  rec_id : string;
  rec_trainId : option string;
  rec_action : string;
  rec_rationale : string;
  rec_confidence : number;
  rec_kpis : KpiImpact;
  rec_alternatives : list Alternative;
  rec_createdAt : option string;
  rec_priority : option Priority;
  rec_status : option RecStatus;
  rec_estimatedImpact : option EstimatedImpact
}.

Record Prediction := {
  pred_trainId : string;
  pred_delayMinutes : number;
  pred_confidence : option number;
  pred_predictedArrival : option string;
  pred_factors : option (list string);
  pred_modelVersion : option string
}.

Record ProjectedKPIs := {
  pk_delay : number;
  pk_throughput : number;
  pk_safety : string;
  pk_cost : option number;
  pk_utilization : option number
}.

Record ChartPoint := {
  cp_time : string;
  cp_delay : number;
  cp_throughput : option number;
  cp_utilization : option number
}.

Record SimulationResult := {
  scenarioId : string;
  projectedKPIs : ProjectedKPIs;
  chartData : option (list ChartPoint);
  comparisonData : option Json;
  sim_recommendations : option (list string)
}.

Inductive Outcome := Success | Failure | Partial.

Record ImpactMetrics := {
  delayChange : number;
  throughputChange : number;
  costImpact : number
}.

Record AuditLog := {
  log_id : string;
  log_timestamp : string;
  log_recId : option string;
  log_trainId : option string;
  log_action : string;
  log_actor : string;
  log_reason : option string;
  log_details : option Json;
  log_outcome : option Outcome;
  log_impactMetrics : option ImpactMetrics
}.

(** [Omit<AuditLog, 'id' | 'timestamp'>] *)
Record AuditDraft := {
  draft_recId : option string;
  draft_trainId : option string;
  draft_action : string;
  draft_actor : string;
  draft_reason : option string;
  draft_details : option Json;
  draft_outcome : option Outcome;
  draft_impactMetrics : option ImpactMetrics
}.

(** [{ ...log, id, timestamp }] *)
Definition stamp (log : AuditDraft) (id timestamp : string) : AuditLog :=
  {| log_id := id;
     log_timestamp := timestamp;
     log_recId := draft_recId log;
     log_trainId := draft_trainId log;
     log_action := draft_action log;
     log_actor := draft_actor log;
     log_reason := draft_reason log;
     log_details := draft_details log;
     log_outcome := draft_outcome log;
     log_impactMetrics := draft_impactMetrics log |}.

Inductive Trend := Up | Down | Stable.
Inductive KpiStatus := Good | Warning | Critical.

Record KPI := {
  kpi_name : string;
  kpi_value : number;
  kpi_unit : option string;
  kpi_target : option number;
  kpi_trend : option Trend;
  kpi_change : option number;
  kpi_changePercent : option number;
  kpi_status : option KpiStatus
}.

Record Constraints := {
  maxDelay : option number;
  priorityTrains : option (list string);
  excludeRoutes : option (list string)
}.

Record WhatIfPayload := {
  wi_trainId : string;
  wi_delayMinutes : option number;
  wi_rerouteTo : option string;
  wi_scenarioName : option string;
  wi_additionalConstraints : option Constraints
}.

Inductive Role := User | Assistant | System.

Record Reference := {
  ref_source : string;
  ref_id : option string;
  ref_title : option string;
  ref_url : option string
}.

Record ChatbotMessage := {
  msg_id : string;
  msg_role : Role;
  msg_text : string;
  msg_timestamp : string;
  msg_references : option (list Reference);
  msg_intent : option string;
  msg_confidence : option number;
  msg_actionable : option bool
}.

Definition ChatbotResponse := ChatbotMessage.

Record ChatContext := {
  ctx_currentPage : option string;
  ctx_selectedTrains : option (list string);
  ctx_activeRecommendations : option (list string)
}.

Record ChatSession := {
  chat_sessionId : string;
  chat_messages : list ChatbotMessage;
  chat_createdAt : string;
  chat_lastActive : string;
  chat_context : option ChatContext
}.

Record FilterState := {
  dateRange : option (string * string);
  filter_trainIds : option (list string);
  filter_status : option (list TrainStatus);
  filter_priority : option (list string)
}.

Record ApiResponse (T : Type) := {
  data : T;
  success : bool;
  message : option string;
  timestamp : string;
  metadata : option Json
}.
Arguments data {T}.
Arguments success {T}.
Arguments message {T}.
Arguments timestamp {T}.
Arguments metadata {T}.

(** [StoreState]; [lastUpdated] is a JavaScript object used as a map from the
    collection's name to the time of its last replacement. *)
Record StoreState := {
  trains : list Train;
  recommendations : list Recommendation;
  predictions : list Prediction;
  auditLogs : list AuditLog;
  kpis : list KPI;
  chatSessions : list ChatSession;
  loading : bool;
  error : option string;
  selectedTrains : list string;
  activeFilters : FilterState;
  lastUpdated : gmap string string
}.

(** Record updates written [{ ...state, field: v }] in the source. *)
Definition with_trains (v : list Train) (s : StoreState) : StoreState :=
  {| trains := v; recommendations := recommendations s; predictions := predictions s;
     auditLogs := auditLogs s; kpis := kpis s; chatSessions := chatSessions s;
     loading := loading s; error := error s; selectedTrains := selectedTrains s;
     activeFilters := activeFilters s; lastUpdated := lastUpdated s |}.

Definition with_recommendations (v : list Recommendation) (s : StoreState) : StoreState :=
  {| trains := trains s; recommendations := v; predictions := predictions s;
     auditLogs := auditLogs s; kpis := kpis s; chatSessions := chatSessions s;
     loading := loading s; error := error s; selectedTrains := selectedTrains s;
     activeFilters := activeFilters s; lastUpdated := lastUpdated s |}.

Definition with_predictions (v : list Prediction) (s : StoreState) : StoreState :=
  {| trains := trains s; recommendations := recommendations s; predictions := v;
     auditLogs := auditLogs s; kpis := kpis s; chatSessions := chatSessions s;
     loading := loading s; error := error s; selectedTrains := selectedTrains s;
     activeFilters := activeFilters s; lastUpdated := lastUpdated s |}.

Definition with_auditLogs (v : list AuditLog) (s : StoreState) : StoreState :=
  {| trains := trains s; recommendations := recommendations s; predictions := predictions s;
     auditLogs := v; kpis := kpis s; chatSessions := chatSessions s;
     loading := loading s; error := error s; selectedTrains := selectedTrains s;
     activeFilters := activeFilters s; lastUpdated := lastUpdated s |}.

Definition with_kpis (v : list KPI) (s : StoreState) : StoreState :=
  {| trains := trains s; recommendations := recommendations s; predictions := predictions s;
     auditLogs := auditLogs s; kpis := v; chatSessions := chatSessions s;
     loading := loading s; error := error s; selectedTrains := selectedTrains s;
     activeFilters := activeFilters s; lastUpdated := lastUpdated s |}.

Definition with_chatSessions (v : list ChatSession) (s : StoreState) : StoreState :=
  {| trains := trains s; recommendations := recommendations s; predictions := predictions s;
     auditLogs := auditLogs s; kpis := kpis s; chatSessions := v;
     loading := loading s; error := error s; selectedTrains := selectedTrains s;
     activeFilters := activeFilters s; lastUpdated := lastUpdated s |}.

Definition with_loading (v : bool) (s : StoreState) : StoreState :=
  {| trains := trains s; recommendations := recommendations s; predictions := predictions s;
     auditLogs := auditLogs s; kpis := kpis s; chatSessions := chatSessions s;
     loading := v; error := error s; selectedTrains := selectedTrains s;
     activeFilters := activeFilters s; lastUpdated := lastUpdated s |}.

Definition with_error (v : option string) (s : StoreState) : StoreState :=
  {| trains := trains s; recommendations := recommendations s; predictions := predictions s;
     auditLogs := auditLogs s; kpis := kpis s; chatSessions := chatSessions s;
     loading := loading s; error := v; selectedTrains := selectedTrains s;
     activeFilters := activeFilters s; lastUpdated := lastUpdated s |}.

Definition with_selectedTrains (v : list string) (s : StoreState) : StoreState :=
  {| trains := trains s; recommendations := recommendations s; predictions := predictions s;
     auditLogs := auditLogs s; kpis := kpis s; chatSessions := chatSessions s;
     loading := loading s; error := error s; selectedTrains := v;
     activeFilters := activeFilters s; lastUpdated := lastUpdated s |}.

Definition with_activeFilters (v : FilterState) (s : StoreState) : StoreState :=
  {| trains := trains s; recommendations := recommendations s; predictions := predictions s;
     auditLogs := auditLogs s; kpis := kpis s; chatSessions := chatSessions s;
     loading := loading s; error := error s; selectedTrains := selectedTrains s;
     activeFilters := v; lastUpdated := lastUpdated s |}.

Definition with_lastUpdated (v : gmap string string) (s : StoreState) : StoreState :=
  {| trains := trains s; recommendations := recommendations s; predictions := predictions s;
     auditLogs := auditLogs s; kpis := kpis s; chatSessions := chatSessions s;
     loading := loading s; error := error s; selectedTrains := selectedTrains s;
     activeFilters := activeFilters s; lastUpdated := v |}.

(** The store's initial state. *)
Definition initialState : StoreState :=
  {| trains := []; recommendations := []; predictions := []; auditLogs := [];
     kpis := []; chatSessions := []; loading := false; error := None;
     selectedTrains := [];
     activeFilters := {| dateRange := None; filter_trainIds := None;
                         filter_status := None; filter_priority := None |};
     lastUpdated := ∅ |}.

(** ** Requests and replies *)

(** The JSON body of a [POST /audit] request as the handler reads it: every
    property may be missing. *)
Record AuditBody := {
  body_id : option string;
  body_timestamp : option string;
  body_action : option string;
  body_actor : option string;
  body_trainId : option string;
  body_recId : option string;
  body_reason : option string;
  body_details : option Json;
  body_outcome : option Outcome;
  body_impactMetrics : option ImpactMetrics
}.

(** The bodies the adapters serialise with [JSON.stringify]; parsing the
    string on the other side gives the same value back. *)
Inductive Body :=
| AuditEntry (entry : AuditBody)
| ChatMessage (sessionId message timestamp : string)
| PredictionRequest (trainIds : list string) (timestamp : string)
| Scenario (payload : WhatIfPayload) (timestamp : string).

(** [RequestInit], with [headers] a plain object. *)
Record RequestInit := {
  method : option string;
  headers : option (gmap string string);
  body : option Body
}.

Definition noOptions : RequestInit :=
  {| method := None; headers := None; body := None |}.

(** A thrown JavaScript value: [new Error(message)]. *)
Inductive JsError := Error (message : string).

(** What [await fetch(url, init)] followed by [response.json()] can give:
    the promise rejects, or a response with a status arrives whose body
    parses (or fails to parse) as JSON. *)
Inductive FetchReply (T : Type) :=
| NetworkError (e : JsError)
| Response (status : Z) (json : JsError + T).
Arguments NetworkError {T}.
Arguments Response {T}.

(** [response.ok] *)
Definition ok (status : Z) : bool := (200 <=? status)%Z && (status <=? 299)%Z.

(** The type parameter [T] of [apiFetch<T>], for the payloads this
    application asks for.  No runtime validation takes place in the source:
    the reply is trusted to have the type the caller names. *)
Inductive Shape :=
| TrainsT | RecommendationsT | KpisT | PredictionsT
| AuditLogsT | AuditIdT | ChatT | SimulationT.

Definition payload (T : Shape) : Type :=
  match T with
  | TrainsT => list Train
  | RecommendationsT => list Recommendation
  | KpisT => list KPI
  | PredictionsT => list Prediction
  | AuditLogsT => list AuditLog
  | AuditIdT => string
  | ChatT => list ChatbotResponse
  | SimulationT => SimulationResult
  end.

(** Calls into the JavaScript runtime that the modelled code makes. *)
Inductive Runtime : Type -> Type :=
| Date_now : Runtime Z
| Date_toISOString : Runtime string
| Math_random_toString36 : Runtime string
| NEXT_PUBLIC_API_BASE : Runtime (option string).

(** ** Asynchronous procedures *)

Inductive Proc (A : Type) : Type :=
| Ret (a : A)
| Throw (e : JsError)
| Get (k : StoreState -> Proc A)
| Set_ (f : StoreState -> StoreState) (k : Proc A)
| Sys {X : Type} (q : Runtime X) (k : X -> Proc A)
| ConsoleError (label : string) (k : Proc A)
| Fetch (T : Shape) (url : string) (init : RequestInit)
        (k : FetchReply (ApiResponse (payload T)) -> Proc A).
Arguments Ret {A}.
Arguments Throw {A}.
Arguments Get {A}.
Arguments Set_ {A}.
Arguments Sys {A X}.
Arguments ConsoleError {A}.
Arguments Fetch {A}.

Fixpoint bind {A B} (p : Proc A) (f : A -> Proc B) : Proc B :=
  match p with
  | Ret a => f a
  | Throw e => Throw e
  | Get k => Get (fun s => bind (k s) f)
  | Set_ g k => Set_ g (bind k f)
  | Sys q k => Sys q (fun x => bind (k x) f)
  | ConsoleError l k => ConsoleError l (bind k f)
  | Fetch T url init k => Fetch T url init (fun r => bind (k r) f)
  end.

(** [try { p } catch (error) { h error }] *)
Fixpoint try_catch {A} (p : Proc A) (h : JsError -> Proc A) : Proc A :=
  match p with
  | Ret a => Ret a
  | Throw e => h e
  | Get k => Get (fun s => try_catch (k s) h)
  | Set_ g k => Set_ g (try_catch k h)
  | Sys q k => Sys q (fun x => try_catch (k x) h)
  | ConsoleError l k => ConsoleError l (try_catch k h)
  | Fetch T url init k => Fetch T url init (fun r => try_catch (k r) h)
  end.

Declare Scope proc_scope.
Delimit Scope proc_scope with proc.
Bind Scope proc_scope with Proc.
Notation "'let*' x := p 'in' q" := (bind p (fun x => q))
  (at level 10, x pattern, p at level 100, q at level 200,
   format "'[v' 'let*'  x  :=  p  'in' '/' q ']'") : proc_scope.
Notation "p >> q" := (bind p (fun _ => q))
  (at level 100, q at level 200, right associativity) : proc_scope.
Local Open Scope proc_scope.

Definition get : Proc StoreState := Get Ret.
Definition set (f : StoreState -> StoreState) : Proc unit := Set_ f (Ret tt).
Definition sys {X} (q : Runtime X) : Proc X := Sys q Ret.
Definition console_error (label : string) : Proc unit := ConsoleError label (Ret tt).
Definition fetch (T : Shape) (url : string) (init : RequestInit)
  : Proc (FetchReply (ApiResponse (payload T))) := Fetch T url init Ret.

(** ** Worlds and execution *)

(** A world answers the [n]-th effect of an execution: the runtime calls and
    the network requests. *)
Record World := {
  runtime : nat -> forall X, Runtime X -> X;
  network : nat -> forall T, string -> RequestInit -> FetchReply (ApiResponse (payload T))
}.

Record Request := {
  req_shape : Shape;
  req_url : string;
  req_init : RequestInit
}.

(** The outcome of an execution: how the promise settled, the store and the
    effect counter at the end, every state the store went through (one per
    [set], oldest first), the requests sent and the lines logged. *)
Record Run (A : Type) := {
  settled : JsError + A;
  store : StoreState;
  clock : nat;
  commits : list StoreState;
  requests : list Request;
  logged : list string
}.
Arguments settled {A}.
Arguments store {A}.
Arguments clock {A}.
Arguments commits {A}.
Arguments requests {A}.
Arguments logged {A}.

Fixpoint run {A} (w : World) (p : Proc A) (s : StoreState) (n : nat) : Run A :=
  match p with
  | Ret a =>
      {| settled := inr a; store := s; clock := n;
         commits := []; requests := []; logged := [] |}
  | Throw e =>
      {| settled := inl e; store := s; clock := n;
         commits := []; requests := []; logged := [] |}
  | Get k => run w (k s) s n
  | Set_ f k =>
      let r := run w k (f s) n in
      {| settled := settled r; store := store r; clock := clock r;
         commits := f s :: commits r; requests := requests r; logged := logged r |}
  | Sys q k => run w (k (runtime w n _ q)) s (S n)
  | ConsoleError l k =>
      let r := run w k s n in
      {| settled := settled r; store := store r; clock := clock r;
         commits := commits r; requests := requests r; logged := l :: logged r |}
  | Fetch T url init k =>
      let r := run w (k (network w n T url init)) s (S n) in
      {| settled := settled r; store := store r; clock := clock r;
         commits := commits r;
         requests := {| req_shape := T; req_url := url; req_init := init |} :: requests r;
         logged := logged r |}
  end.

(** ** Strings of the JavaScript runtime *)

(** [String(n)] for an integral number, as in a template literal. *)
Definition show (n : Z) : string := pretty n.

Definition hex_digit (n : nat) : ascii :=
  nth n (list_ascii_of_string "0123456789ABCDEF") "0"%char.

Definition form_unreserved (a : ascii) : bool :=
  let n := nat_of_ascii a in
  (((48 <=? n) && (n <=? 57)) || ((65 <=? n) && (n <=? 90)) ||
   ((97 <=? n) && (n <=? 122)) ||
   (n =? 42) || (n =? 45) || (n =? 46) || (n =? 95))%nat.

(** The [application/x-www-form-urlencoded] serialisation of a string, byte
    by byte. *)
Fixpoint form_encode (s : string) : string :=
  match s with
  | EmptyString => ""
  | String a rest =>
      let n := nat_of_ascii a in
      (if form_unreserved a then String a ""
       else if (n =? 32)%nat then "+"
       else String "%" (String (hex_digit (n / 16)%nat) (String (hex_digit (n mod 16)%nat) "")))
      +:+ form_encode rest
  end.

(** [new URLSearchParams()] with [append]ed pairs, then [toString()]. *)
Definition URLSearchParams_toString (params : list (string * string)) : string :=
  String.concat "&" (map (fun kv => form_encode kv.1 +:+ "=" +:+ form_encode kv.2) params).

(** ** Transport adapter ([services/adapterBase.ts]) *)

Definition getApiBaseUrl : Proc string :=
  let* env := sys NEXT_PUBLIC_API_BASE in
  Ret (match env with
       | Some base => if String.eqb base "" then "/api" else base
       | None => "/api"
       end).

Definition apiUrl (path : string) : Proc string :=
  let* baseUrl := getApiBaseUrl in
  let cleanPath := if String.prefix "/" path then path else "/" +:+ path in
  Ret (baseUrl +:+ cleanPath).

(** [{ 'Content-Type': 'application/json', ...h }]: the keys of [h] come
    later and win. *)
Definition spread_headers (h : option (gmap string string)) : gmap string string :=
  match h with
  | Some caller => caller ∪ {[ "Content-Type" := "application/json" ]}
  | None => {[ "Content-Type" := "application/json" ]}
  end.

(** [{ ...target, ...options }]: every property [options] has replaces the
    one of [target].  [None] is a property [options] does not have; a
    property present with the value [undefined], which would replace the
    one of [target] as well, is not represented. *)
Definition spread_options (target options : RequestInit) : RequestInit :=
  {| method := match method options with Some m => Some m | None => method target end;
     headers := match headers options with Some h => Some h | None => headers target end;
     body := match body options with Some b => Some b | None => body target end |}.

(** [const defaultOptions = { headers: { 'Content-Type': 'application/json',
    ...options.headers }, ...options }] *)
Definition defaultOptions (options : RequestInit) : RequestInit :=
  spread_options
    {| method := None; headers := Some (spread_headers (headers options)); body := None |}
    options.

Definition apiFetch (T : Shape) (url : string) (options : RequestInit)
  : Proc (ApiResponse (payload T)) :=
  try_catch
    (let* response := fetch T url (defaultOptions options) in
     match response with
     | NetworkError e => Throw e
     | Response status json =>
         if negb (ok status)
         then Throw (Error ("HTTP error! status: " +:+ show status))
         else match json with
              | inl e => Throw e
              | inr data => Ret data
              end
     end)
    (fun error =>
       console_error ("API request failed for " +:+ url +:+ ":") >>
       Throw error).

Definition apiGet (T : Shape) (path : string) : Proc (ApiResponse (payload T)) :=
  let* url := apiUrl path in
  apiFetch T url {| method := Some "GET"; headers := None; body := None |}.

Definition apiPost (T : Shape) (path : string) (data : option Body)
  : Proc (ApiResponse (payload T)) :=
  let* url := apiUrl path in
  apiFetch T url {| method := Some "POST"; headers := None; body := data |}.

Definition apiPut (T : Shape) (path : string) (data : option Body)
  : Proc (ApiResponse (payload T)) :=
  let* url := apiUrl path in
  apiFetch T url {| method := Some "PUT"; headers := None; body := data |}.

Definition apiDelete (T : Shape) (path : string) : Proc (ApiResponse (payload T)) :=
  let* url := apiUrl path in
  apiFetch T url {| method := Some "DELETE"; headers := None; body := None |}.

(** ** Audit service ([services/auditService.ts]) *)

Module auditService.

Definition createAuditLog (action actor : string) (details : option Json)
    (trainId recId reason : option string) : AuditDraft :=
  {| draft_recId := recId;
     draft_trainId := trainId;
     draft_action := action;
     draft_actor := actor;
     draft_reason := reason;
     draft_details := details;
     draft_outcome := Some Success;
     draft_impactMetrics := None |}.

(** [JSON.stringify({ ...auditLog })]: the properties of the entry. *)
Definition audit_body (l : AuditLog) : AuditBody :=
  {| body_id := Some (log_id l);
     body_timestamp := Some (log_timestamp l);
     body_action := Some (log_action l);
     body_actor := Some (log_actor l);
     body_trainId := log_trainId l;
     body_recId := log_recId l;
     body_reason := log_reason l;
     body_details := log_details l;
     body_outcome := log_outcome l;
     body_impactMetrics := log_impactMetrics l |}.

(** [Math.random().toString(36).substr(2, 9)] *)
Definition random_suffix : Proc string :=
  let* r := sys Math_random_toString36 in
  Ret (String.substring 2 9 r).

Definition postAudit (log : AuditDraft) : Proc unit :=
  try_catch
    (let* now := sys Date_now in
     let* suffix := random_suffix in
     let* iso := sys Date_toISOString in
     let auditLog := stamp log ("audit-" +:+ show now +:+ "-" +:+ suffix) iso in
     apiPost AuditIdT "/audit" (Some (AuditEntry (audit_body auditLog))) >>
     Ret tt)
    (fun error =>
       console_error "Failed to post audit log:" >>
       Throw error).

Definition getAudit (filters : option FilterState) : Proc (list AuditLog) :=
  try_catch
    (let range :=
       match filters ≫= dateRange with
       | Some (start, end_) => [("startDate", start); ("endDate", end_)]
       | None => []
       end in
     let ids :=
       match filters ≫= filter_trainIds with
       | Some trainIds =>
           if (0 <? length trainIds)%nat
           then [("trainIds", String.concat "," trainIds)]
           else []
       | None => []
       end in
     let queryParams := URLSearchParams_toString (range ++ ids) in
     let url := "/audit" +:+
                (if String.eqb queryParams "" then "" else "?" +:+ queryParams) in
     let* response := apiGet AuditLogsT url in
     Ret (data response))
    (fun error =>
       console_error "Failed to get audit logs:" >>
       Ret []).

End auditService.

(** ** Chatbot adapter ([services/chatbotAdapter.ts]) *)

Module chatbotService.

Definition apology : string :=
  "I apologize, but I'm experiencing technical difficulties. Please try again later or contact support if the issue persists.".

Definition sendChatMessage (sessionId message : string) : Proc (list ChatbotResponse) :=
  try_catch
    (let* iso := sys Date_toISOString in
     let* response :=
       apiPost ChatT "/chat/message" (Some (ChatMessage sessionId message iso)) in
     Ret (data response))
    (fun error =>
       console_error "Failed to send chat message:" >>
       let* now := sys Date_now in
       let* iso := sys Date_toISOString in
       Ret [ {| msg_id := "error-" +:+ show now;
                msg_role := Assistant;
                msg_text := apology;
                msg_timestamp := iso;
                msg_references := None;
                msg_intent := None;
                msg_confidence := Some 0%Q;
                msg_actionable := None |} ]).

Definition getChatHistory (sessionId : string) : Proc (list ChatbotMessage) :=
  try_catch
    (let* response := apiGet ChatT ("/chat/history/" +:+ sessionId) in
     Ret (data response))
    (fun error =>
       console_error ("Failed to get chat history for session " +:+ sessionId +:+ ":") >>
       Ret []).

End chatbotService.

(** ** Prediction adapter ([services/predictionAdapter.ts]) *)

Module predictionService.

Definition getPredictionsForTrains (trains : list Train) : Proc (list Prediction) :=
  try_catch
    (let trainIds := map train_id trains in
     let* iso := sys Date_toISOString in
     let* response :=
       apiPost PredictionsT "/predictions" (Some (PredictionRequest trainIds iso)) in
     Ret (data response))
    (fun error =>
       console_error "Failed to get predictions:" >>
       Ret []).

End predictionService.

(** ** Simulator adapter ([services/simulatorAdapter.ts]) *)

Module simulatorService.

Definition runWhatIfScenario (payload : WhatIfPayload) : Proc SimulationResult :=
  try_catch
    (let* iso := sys Date_toISOString in
     let* response := apiPost SimulationT "/simulate" (Some (Scenario payload iso)) in
     Ret (data response))
    (fun error =>
       console_error "Failed to run what-if scenario:" >>
       let* now := sys Date_now in
       Ret {| scenarioId := "sim-" +:+ show now;
              projectedKPIs := {| pk_delay := 0%Q; pk_throughput := 0%Q;
                                  pk_safety := "unknown";
                                  pk_cost := None; pk_utilization := None |};
              chartData := Some [];
              comparisonData := None;
              sim_recommendations := Some ["Simulation failed - check system status"] |}).

End simulatorService.

(** ** Objects passed as [details] *)

Definition opt_field {A} (key : string) (enc : A -> Json) (o : option A)
  : list (string * Json) :=
  match o with
  | Some a => [(key, enc a)]
  | None => []
  end.

Definition json_strings (l : list string) : Json := JArr (map JStr l).

Definition json_of_Constraints (c : Constraints) : Json :=
  JObj (opt_field "maxDelay" JNum (maxDelay c) ++
        opt_field "priorityTrains" json_strings (priorityTrains c) ++
        opt_field "excludeRoutes" json_strings (excludeRoutes c)).

Definition json_of_WhatIfPayload (p : WhatIfPayload) : Json :=
  JObj (("trainId", JStr (wi_trainId p)) ::
        opt_field "delayMinutes" JNum (wi_delayMinutes p) ++
        opt_field "rerouteTo" JStr (wi_rerouteTo p) ++
        opt_field "scenarioName" JStr (wi_scenarioName p) ++
        opt_field "additionalConstraints" json_of_Constraints (wi_additionalConstraints p)).

Definition json_of_ProjectedKPIs (k : ProjectedKPIs) : Json :=
  JObj (("delay", JNum (pk_delay k)) ::
        ("throughput", JNum (pk_throughput k)) ::
        ("safety", JStr (pk_safety k)) ::
        opt_field "cost" JNum (pk_cost k) ++
        opt_field "utilization" JNum (pk_utilization k)).

(** ** The store ([stores/useStore.ts]) *)

(** [{ ...r, status }] and [{ ...r, status, action }] *)
Definition with_status (st : RecStatus) (r : Recommendation) : Recommendation :=
  {| rec_id := rec_id r; rec_trainId := rec_trainId r; rec_action := rec_action r;
     rec_rationale := rec_rationale r; rec_confidence := rec_confidence r;
     rec_kpis := rec_kpis r; rec_alternatives := rec_alternatives r;
     rec_createdAt := rec_createdAt r; rec_priority := rec_priority r;
     rec_status := Some st; rec_estimatedImpact := rec_estimatedImpact r |}.

Definition with_status_action (st : RecStatus) (action : string) (r : Recommendation)
  : Recommendation :=
  {| rec_id := rec_id r; rec_trainId := rec_trainId r; rec_action := action;
     rec_rationale := rec_rationale r; rec_confidence := rec_confidence r;
     rec_kpis := rec_kpis r; rec_alternatives := rec_alternatives r;
     rec_createdAt := rec_createdAt r; rec_priority := rec_priority r;
     rec_status := Some st; rec_estimatedImpact := rec_estimatedImpact r |}.

(** [{ ...session, messages, lastActive }] *)
Definition with_messages (ms : list ChatbotMessage) (active : string) (s : ChatSession)
  : ChatSession :=
  {| chat_sessionId := chat_sessionId s; chat_messages := ms;
     chat_createdAt := chat_createdAt s; chat_lastActive := active;
     chat_context := chat_context s |}.

(** [{ ...s, messages }] *)
Definition with_messages_only (ms : list ChatbotMessage) (s : ChatSession) : ChatSession :=
  {| chat_sessionId := chat_sessionId s; chat_messages := ms;
     chat_createdAt := chat_createdAt s; chat_lastActive := chat_lastActive s;
     chat_context := chat_context s |}.

Module useStore.

(** *** Data actions *)

Definition setTrains (v : list Train) : Proc unit :=
  let* cur := get in
  let* iso := sys Date_toISOString in
  set (fun s => with_lastUpdated (<["trains" := iso]> (lastUpdated cur)) (with_trains v s)).

Definition setRecommendations (v : list Recommendation) : Proc unit :=
  let* cur := get in
  let* iso := sys Date_toISOString in
  set (fun s => with_lastUpdated (<["recommendations" := iso]> (lastUpdated cur))
                  (with_recommendations v s)).

Definition setPredictions (v : list Prediction) : Proc unit :=
  let* cur := get in
  let* iso := sys Date_toISOString in
  set (fun s => with_lastUpdated (<["predictions" := iso]> (lastUpdated cur))
                  (with_predictions v s)).

Definition setKpis (v : list KPI) : Proc unit :=
  let* cur := get in
  let* iso := sys Date_toISOString in
  set (fun s => with_lastUpdated (<["kpis" := iso]> (lastUpdated cur)) (with_kpis v s)).

Definition addAuditLog (log : AuditLog) : Proc unit :=
  set (fun state => with_auditLogs (log :: auditLogs state) state).

(** *** Recommendation actions *)

Definition acceptRecommendation (recId : string) : Proc unit :=
  let* state := get in
  match find (fun r => String.eqb (rec_id r) recId) (recommendations state) with
  | None => Throw (Error ("Recommendation " +:+ recId +:+ " not found"))
  | Some recommendation =>
      try_catch
        (set (fun s => with_error None (with_loading true s)) >>
         let auditLog :=
           auditService.createAuditLog
             "Recommendation Accepted"
             "System User"
             (Some (JObj [("recommendationId", JStr recId);
                          ("action", JStr (rec_action recommendation))]))
             (rec_trainId recommendation)
             (Some recId)
             (Some "User accepted AI recommendation") in
         auditService.postAudit auditLog >>
         let updatedRecommendations :=
           map (fun r => if String.eqb (rec_id r) recId then with_status Accepted r else r)
               (recommendations state) in
         let* now := sys Date_now in
         let* iso := sys Date_toISOString in
         set (fun s =>
                with_loading false
                  (with_auditLogs
                     (stamp auditLog ("audit-" +:+ show now) iso :: auditLogs state)
                     (with_recommendations updatedRecommendations s))))
        (fun error =>
           console_error "Failed to accept recommendation:" >>
           set (fun s => with_loading false
                           (with_error (Some "Failed to accept recommendation") s)) >>
           Throw error)
  end.

Definition overrideRecommendation (recId altId : string) : Proc unit :=
  let* state := get in
  let recommendation :=
    find (fun r => String.eqb (rec_id r) recId) (recommendations state) in
  let alternative :=
    recommendation ≫= fun r =>
      find (fun a => String.eqb (alt_id a) altId) (rec_alternatives r) in
  match recommendation, alternative with
  | Some recommendation, Some alternative =>
      try_catch
        (set (fun s => with_error None (with_loading true s)) >>
         let auditLog :=
           auditService.createAuditLog
             "Recommendation Overridden"
             "System User"
             (Some (JObj [("recommendationId", JStr recId);
                          ("alternativeId", JStr altId);
                          ("originalAction", JStr (rec_action recommendation));
                          ("selectedAction", JStr (alt_action alternative))]))
             (rec_trainId recommendation)
             (Some recId)
             (Some ("User selected alternative: " +:+ alt_action alternative)) in
         auditService.postAudit auditLog >>
         let updatedRecommendations :=
           map (fun r => if String.eqb (rec_id r) recId
                         then with_status_action Accepted (alt_action alternative) r
                         else r)
               (recommendations state) in
         let* now := sys Date_now in
         let* iso := sys Date_toISOString in
         set (fun s =>
                with_loading false
                  (with_auditLogs
                     (stamp auditLog ("audit-" +:+ show now) iso :: auditLogs state)
                     (with_recommendations updatedRecommendations s))))
        (fun error =>
           console_error "Failed to override recommendation:" >>
           set (fun s => with_loading false
                           (with_error (Some "Failed to override recommendation") s)) >>
           Throw error)
  | _, _ =>
      Throw (Error ("Recommendation " +:+ recId +:+ " or alternative " +:+ altId
                    +:+ " not found"))
  end.

Definition rejectRecommendation (recId reason : string) : Proc unit :=
  let* state := get in
  match find (fun r => String.eqb (rec_id r) recId) (recommendations state) with
  | None => Throw (Error ("Recommendation " +:+ recId +:+ " not found"))
  | Some recommendation =>
      try_catch
        (set (fun s => with_error None (with_loading true s)) >>
         let auditLog :=
           auditService.createAuditLog
             "Recommendation Rejected"
             "System User"
             (Some (JObj [("recommendationId", JStr recId);
                          ("action", JStr (rec_action recommendation))]))
             (rec_trainId recommendation)
             (Some recId)
             (Some reason) in
         auditService.postAudit auditLog >>
         let updatedRecommendations :=
           map (fun r => if String.eqb (rec_id r) recId then with_status Rejected r else r)
               (recommendations state) in
         let* now := sys Date_now in
         let* iso := sys Date_toISOString in
         set (fun s =>
                with_loading false
                  (with_auditLogs
                     (stamp auditLog ("audit-" +:+ show now) iso :: auditLogs state)
                     (with_recommendations updatedRecommendations s))))
        (fun error =>
           console_error "Failed to reject recommendation:" >>
           set (fun s => with_loading false
                           (with_error (Some "Failed to reject recommendation") s)) >>
           Throw error)
  end.

(** *** Simulation action *)

Definition runSimulation (payload : WhatIfPayload) : Proc SimulationResult :=
  try_catch
    (set (fun s => with_error None (with_loading true s)) >>
     let* result := simulatorService.runWhatIfScenario payload in
     let scenarioName :=
       match wi_scenarioName payload with
       | Some name => if String.eqb name "" then "Unnamed scenario" else name
       | None => "Unnamed scenario"
       end in
     let auditLog :=
       auditService.createAuditLog
         "What-If Simulation Executed"
         "System User"
         (Some (JObj [("scenario", json_of_WhatIfPayload payload);
                      ("results",
                       JObj [("scenarioId", JStr (scenarioId result));
                             ("projectedKPIs",
                              json_of_ProjectedKPIs (projectedKPIs result))])]))
         (Some (wi_trainId payload))
         None
         (Some ("Simulated scenario: " +:+ scenarioName)) in
     auditService.postAudit auditLog >>
     let* now := sys Date_now in
     let* iso := sys Date_toISOString in
     set (fun state =>
            with_loading false
              (with_auditLogs
                 (stamp auditLog ("audit-" +:+ show now) iso :: auditLogs state)
                 state)) >>
     Ret result)
    (fun error =>
       console_error "Failed to run simulation:" >>
       set (fun s => with_loading false (with_error (Some "Failed to run simulation") s)) >>
       Throw error).

(** *** Chat actions *)

Definition storeApology : string :=
  "Sorry, I encountered an error processing your message. Please try again.".

(** The [try] block of [sendChatMessage], for the session found or built. *)
Definition sendChatMessage_try (sessionId text : string) (session : ChatSession)
  : Proc unit :=
  let same (s : ChatSession) := String.eqb (chat_sessionId s) sessionId in
  let* now := sys Date_now in
  let* iso := sys Date_toISOString in
  let userMessage :=
    {| msg_id := "msg-" +:+ show now +:+ "-user";
       msg_role := User;
       msg_text := text;
       msg_timestamp := iso;
       msg_references := None; msg_intent := None;
       msg_confidence := None; msg_actionable := None |} in
  let* active := sys Date_toISOString in
  let updatedSession :=
    with_messages (chat_messages session ++ [userMessage]) active session in
  set (fun state =>
         with_chatSessions
           (if existsb same (chatSessions state)
            then map (fun s => if same s then updatedSession else s) (chatSessions state)
            else chatSessions state ++ [updatedSession])
           state) >>
  let* responses := chatbotService.sendChatMessage sessionId text in
  let* active' := sys Date_toISOString in
  let finalSession :=
    with_messages (chat_messages updatedSession ++ responses) active' updatedSession in
  set (fun state =>
         with_chatSessions
           (map (fun s => if same s then finalSession else s) (chatSessions state))
           state).

(** The [catch] block of [sendChatMessage]. *)
Definition sendChatMessage_catch (sessionId : string) (error : JsError) : Proc unit :=
  let same (s : ChatSession) := String.eqb (chat_sessionId s) sessionId in
  console_error "Failed to send chat message:" >>
  let* now := sys Date_now in
  let* iso := sys Date_toISOString in
  let errorMessage :=
    {| msg_id := "msg-" +:+ show now +:+ "-error";
       msg_role := Assistant;
       msg_text := storeApology;
       msg_timestamp := iso;
       msg_references := None; msg_intent := None;
       msg_confidence := None; msg_actionable := None |} in
  set (fun state =>
         with_chatSessions
           (map (fun s => if same s
                          then with_messages_only (chat_messages s ++ [errorMessage]) s
                          else s)
                (chatSessions state))
           state).

Definition sendChatMessage (sessionId text : string) : Proc unit :=
  let same (s : ChatSession) := String.eqb (chat_sessionId s) sessionId in
  let* state := get in
  let* session :=
    match find same (chatSessions state) with
    | Some session => Ret session
    | None =>
        let* created := sys Date_toISOString in
        let* active := sys Date_toISOString in
        Ret {| chat_sessionId := sessionId; chat_messages := [];
               chat_createdAt := created; chat_lastActive := active;
               chat_context := None |}
    end in
  try_catch (sendChatMessage_try sessionId text session)
            (sendChatMessage_catch sessionId).

Definition createChatSession : Proc string :=
  let* now := sys Date_now in
  let* suffix := auditService.random_suffix in
  let sessionId := "session-" +:+ show now +:+ "-" +:+ suffix in
  let* created := sys Date_toISOString in
  let* active := sys Date_toISOString in
  let newSession :=
    {| chat_sessionId := sessionId; chat_messages := [];
       chat_createdAt := created; chat_lastActive := active; chat_context := None |} in
  set (fun state => with_chatSessions (chatSessions state ++ [newSession]) state) >>
  Ret sessionId.

Definition getChatSession (sessionId : string) : Proc (option ChatSession) :=
  let* state := get in
  Ret (find (fun s => String.eqb (chat_sessionId s) sessionId) (chatSessions state)).

(** *** UI actions *)

Definition setLoading (v : bool) : Proc unit := set (with_loading v).
Definition setError (v : option string) : Proc unit := set (with_error v).
Definition setSelectedTrains (trainIds : list string) : Proc unit :=
  set (with_selectedTrains trainIds).
Definition setActiveFilters (filters : FilterState) : Proc unit :=
  set (with_activeFilters filters).

(** *** Data fetching actions *)

Definition fetchTrains : Proc unit :=
  try_catch
    (set (fun s => with_error None (with_loading true s)) >>
     let* response := apiGet TrainsT "/trains" in
     let* cur := get in
     let* iso := sys Date_toISOString in
     set (fun s =>
            with_lastUpdated (<["trains" := iso]> (lastUpdated cur))
              (with_loading false (with_trains (data response) s))))
    (fun error =>
       console_error "Failed to fetch trains:" >>
       set (fun s => with_loading false (with_error (Some "Failed to fetch trains") s))).

Definition fetchRecommendations : Proc unit :=
  try_catch
    (set (fun s => with_error None (with_loading true s)) >>
     let* response := apiGet RecommendationsT "/recommendations" in
     let* cur := get in
     let* iso := sys Date_toISOString in
     set (fun s =>
            with_lastUpdated (<["recommendations" := iso]> (lastUpdated cur))
              (with_loading false (with_recommendations (data response) s))))
    (fun error =>
       console_error "Failed to fetch recommendations:" >>
       set (fun s => with_loading false
                       (with_error (Some "Failed to fetch recommendations") s))).

Definition fetchPredictions (trainIds : option (list string)) : Proc unit :=
  try_catch
    (set (fun s => with_error None (with_loading true s)) >>
     let* state := get in
     let trains :=
       match trainIds with
       | Some ids =>
           List.filter (fun t => existsb (String.eqb (train_id t)) ids) (trains state)
       | None => trains state
       end in
     let* predictions := predictionService.getPredictionsForTrains trains in
     let* cur := get in
     let* iso := sys Date_toISOString in
     set (fun s =>
            with_lastUpdated (<["predictions" := iso]> (lastUpdated cur))
              (with_loading false (with_predictions predictions s))))
    (fun error =>
       console_error "Failed to fetch predictions:" >>
       set (fun s => with_loading false
                       (with_error (Some "Failed to fetch predictions") s))).

Definition fetchKpis : Proc unit :=
  try_catch
    (set (fun s => with_error None (with_loading true s)) >>
     let* response := apiGet KpisT "/kpis" in
     let* cur := get in
     let* iso := sys Date_toISOString in
     set (fun s =>
            with_lastUpdated (<["kpis" := iso]> (lastUpdated cur))
              (with_loading false (with_kpis (data response) s))))
    (fun error =>
       console_error "Failed to fetch KPIs:" >>
       set (fun s => with_loading false (with_error (Some "Failed to fetch KPIs") s))).

Definition fetchAuditLogs (filters : option FilterState) : Proc unit :=
  try_catch
    (set (fun s => with_error None (with_loading true s)) >>
     let* auditLogs := auditService.getAudit filters in
     set (fun s => with_loading false (with_auditLogs auditLogs s)))
    (fun error =>
       console_error "Failed to fetch audit logs:" >>
       set (fun s => with_loading false
                       (with_error (Some "Failed to fetch audit logs") s))).

(** *** Persistence: the part of the state [partialize] keeps *)

Record Persisted := {
  persisted_trains : list Train;
  persisted_recommendations : list Recommendation;
  persisted_predictions : list Prediction;
  persisted_kpis : list KPI;
  persisted_selectedTrains : list string;
  persisted_activeFilters : FilterState;
  persisted_lastUpdated : gmap string string
}.

Definition partialize (state : StoreState) : Persisted :=
  {| persisted_trains := trains state;
     persisted_recommendations := recommendations state;
     persisted_predictions := predictions state;
     persisted_kpis := kpis state;
     persisted_selectedTrains := selectedTrains state;
     persisted_activeFilters := activeFilters state;
     persisted_lastUpdated := lastUpdated state |}.

(** *** Selectors *)

Definition useTrainById (trainId : string) (state : StoreState) : option Train :=
  find (fun t => String.eqb (train_id t) trainId) (trains state).

Definition useRecommendationsByTrain (trainId : string) (state : StoreState)
  : list Recommendation :=
  List.filter
    (fun r => match rec_trainId r with
              | Some t => String.eqb t trainId
              | None => false
              end)
    (recommendations state).

Definition usePredictionByTrain (trainId : string) (state : StoreState)
  : option Prediction :=
  find (fun p => String.eqb (pred_trainId p) trainId) (predictions state).

(** [(t.delayMinutes || 0) > 0] *)
Definition useDelayedTrains (state : StoreState) : list Train :=
  List.filter
    (fun t => negb (Qle_bool (default 0%Q (train_delayMinutes t)) 0%Q))
    (trains state).

Definition usePendingRecommendations (state : StoreState) : list Recommendation :=
  List.filter
    (fun r => match rec_status r with Some Pending => true | _ => false end)
    (recommendations state).

Definition useKpiByName (name : string) (state : StoreState) : option KPI :=
  find (fun k => String.eqb (kpi_name k) name) (kpis state).

(** [state.auditLogs.slice(0, limit)], [limit] defaulting to 10. *)
Definition useRecentAuditLogs (limit : option nat) (state : StoreState) : list AuditLog :=
  take (default 10 limit) (auditLogs state).

Definition useActiveChatSession (state : StoreState) : option ChatSession :=
  head (chatSessions state).

End useStore.

(** ** One await at a time *)

(** An action between two turns of the event loop: settled, or suspended on
    a request with the rest of the action waiting for the reply. *)
Inductive Task (A : Type) :=
| Settled (r : JsError + A)
| Awaiting (T : Shape) (url : string) (init : RequestInit)
           (k : FetchReply (ApiResponse (payload T)) -> Proc A).
Arguments Settled {A}.
Arguments Awaiting {A}.

(** Runs the synchronous part of a procedure, up to its next request. *)
Fixpoint advance {A} (w : World) (p : Proc A) (s : StoreState) (n : nat)
  : Task A * StoreState * nat :=
  match p with
  | Ret a => (Settled (inr a), s, n)
  | Throw e => (Settled (inl e), s, n)
  | Get k => advance w (k s) s n
  | Set_ f k => advance w k (f s) n
  | Sys q k => advance w (k (runtime w n _ q)) s (S n)
  | ConsoleError _ k => advance w k s n
  | Fetch T url init k => (Awaiting T url init k, s, n)
  end.

(** The reply to a suspended task's request arrives. *)
Definition settle {A} (w : World) (t : Task A) (s : StoreState) (n : nat)
  : Task A * StoreState * nat :=
  match t with
  | Settled r => (Settled r, s, n)
  | Awaiting T url init k => advance w (k (network w n T url init)) s (S n)
  end.

(** Several actions in flight on one store; the schedule names, turn by
    turn, the task whose reply arrives next. *)
Fixpoint interleave (w : World) (pool : list (Task unit)) (schedule : list nat)
    (s : StoreState) (n : nat) : list (Task unit) * StoreState * nat :=
  match schedule with
  | [] => (pool, s, n)
  | i :: rest =>
      match pool !! i with
      | Some t =>
          let '(t', s', n') := settle w t s n in
          interleave w (<[i := t']> pool) rest s' n'
      | None => interleave w pool rest s n
      end
  end.

Definition is_settled {A} (t : Task A) : bool :=
  match t with
  | Settled _ => true
  | Awaiting _ _ _ _ => false
  end.

(** ** The audit endpoint ([app/api/audit/route.ts]) *)

Module auditRoute.

Record ApiError := {
  err_error : string;
  err_code : option string;
  err_timestamp : string;
  err_details : option string
}.

(** The handler's readings of its own clock and random source. *)
Record Clock := {
  now : Z;
  random36 : string;
  entryTime : string;
  replyTime : string
}.

(** Truthiness of an optional string property. *)
Definition truthy (o : option string) : bool :=
  match o with
  | Some s => negb (String.eqb s "")
  | None => false
  end.

(** [o || d] *)
Definition or_else (o : option string) (d : string) : string :=
  match o with
  | Some s => if String.eqb s "" then d else s
  | None => d
  end.

(** [`audit-${Date.now()}-${Math.random().toString(36).substr(2, 9)}`] *)
Definition generatedId (c : Clock) : string :=
  "audit-" +:+ show (now c) +:+ "-" +:+ String.substring 2 9 (random36 c).

Definition POST (auditStorage : list AuditLog) (request : JsError + AuditBody) (c : Clock)
  : Z * (ApiError + ApiResponse string) * list AuditLog :=
  match request with
  | inl (Error message) =>
      (500%Z,
       inl {| err_error := "Failed to create audit log";
              err_code := Some "AUDIT_CREATE_ERROR";
              err_timestamp := replyTime c;
              err_details := Some message |},
       auditStorage)
  | inr body =>
      if negb (truthy (body_action body)) || negb (truthy (body_actor body))
      then
        (400%Z,
         inl {| err_error := "Missing required fields: action and actor are required";
                err_code := Some "VALIDATION_ERROR";
                err_timestamp := replyTime c;
                err_details := None |},
         auditStorage)
      else
        let auditLog :=
          {| log_id := or_else (body_id body) (generatedId c);
             log_timestamp := or_else (body_timestamp body) (entryTime c);
             log_action := default "" (body_action body);
             log_actor := default "" (body_actor body);
             log_trainId := body_trainId body;
             log_recId := body_recId body;
             log_reason := body_reason body;
             log_details := body_details body;
             log_outcome := Some (default Success (body_outcome body));
             log_impactMetrics := body_impactMetrics body |} in
        let unshifted := auditLog :: auditStorage in
        let auditStorage' :=
          if (1000 <? length unshifted)%nat then take 1000 unshifted else unshifted in
        (200%Z,
         inr {| data := log_id auditLog;
                success := true;
                message := Some "Audit log created successfully";
                timestamp := replyTime c;
                metadata :=
                  Some (JObj [("logId", JStr (log_id auditLog));
                              ("totalLogs",
                               JNum (inject_Z (Z.of_nat (length auditStorage'))))]) |},
         auditStorage')
  end.

End auditRoute.

(** ** The KPI endpoint's health summary ([app/api/kpis/route.ts]) *)

Module kpisRoute.

Inductive SystemHealth := excellent | good | warning | critical.

(** The key of a status in the [statusCounts] object. *)
Definition status_key (st : KpiStatus) : string :=
  match st with
  | Good => "good"
  | Warning => "warning"
  | Critical => "critical"
  end.

(** [kpis.reduce((counts, kpi) => { counts[kpi.status || 'good'] =
    (counts[kpi.status || 'good'] || 0) + 1; return counts }, {})] *)
Definition statusCounts (kpis : list KPI) : gmap string nat :=
  fold_left
    (fun counts kpi =>
       let key := status_key (default Good (kpi_status kpi)) in
       <[key := default 0 (counts !! key) + 1]> counts)
    kpis ∅.

(** [(statusCounts.key || 0) / total]: a ratio of two counts, which is [NaN]
    (here [None]) when there are no KPIs at all.  The ratio is kept exact:
    an array has fewer than 2^32 elements, and for counts of that size the
    rounded quotient compares with the literals 0.3, 0.5 and 0.8 as the
    exact one does with 3/10, 1/2 and 8/10. *)
Definition percent (counts : gmap string nat) (key : string) (total : nat) : option Q :=
  if (total =? 0)%nat then None
  else Some (Qdiv (inject_Z (Z.of_nat (default 0 (counts !! key))))
                  (inject_Z (Z.of_nat total))).

(** [x > bound]; every comparison with [NaN] is false. *)
Definition exceeds (x : option Q) (bound : Q) : bool :=
  match x with
  | Some q => negb (Qle_bool q bound)
  | None => false
  end.

Definition calculateSystemHealth (kpis : list KPI) : SystemHealth :=
  let statusCounts := statusCounts kpis in
  let total := length kpis in
  let criticalPercent := percent statusCounts "critical" total in
  let warningPercent := percent statusCounts "warning" total in
  let goodPercent := percent statusCounts "good" total in
  if exceeds criticalPercent (3 # 10) then critical
  else if exceeds criticalPercent 0 || exceeds warningPercent (1 # 2) then warning
  else if exceeds goodPercent (8 # 10) then excellent
  else good.

End kpisRoute.

(** ** The recommendations page ([app/recommendations/page.tsx]) *)

Module recommendationsPage.

(** The component state the handlers read and write. *)
Record PageState := {
  selectedRec : option string;
  rejectReason : string
}.

Definition handleAccept (recId : string) : Proc unit :=
  try_catch
    (useStore.acceptRecommendation recId)
    (fun error => console_error "Failed to accept recommendation:").

Definition handleOverride (recId altId : string) : Proc unit :=
  try_catch
    (useStore.overrideRecommendation recId altId)
    (fun error => console_error "Failed to override recommendation:").

(** [useEffect(() => { fetchRecommendations(); fetchTrains(); }, ...)]: the
    two actions are started one after the other, neither is awaited. *)
Definition mountEffect : list (Proc unit) :=
  [useStore.fetchRecommendations; useStore.fetchTrains].

(** The handler resolves with the component state it leaves. *)
Definition handleReject (page : PageState) (recId : string) : Proc PageState :=
  try_catch
    (useStore.rejectRecommendation recId
       (if String.eqb (rejectReason page) "" then "No reason provided"
        else rejectReason page) >>
     Ret {| selectedRec := None; rejectReason := "" |})
    (fun error =>
       console_error "Failed to reject recommendation:" >>
       Ret page).

Definition pendingRecommendations (recommendations : list Recommendation)
  : list Recommendation :=
  List.filter
    (fun r => match rec_status r with Some Pending => true | _ => false end)
    recommendations.

Definition completedRecommendations (recommendations : list Recommendation)
  : list Recommendation :=
  List.filter
    (fun r => negb match rec_status r with Some Pending => true | _ => false end)
    recommendations.

End recommendationsPage.

(** ** Seeded data ([services/mockData.ts]) *)

Definition mockAlternatives : list Alternative :=
  [ {| alt_id := "alt-001";
       alt_action := "Reroute via Oxford";
       alt_description :=
         Some "Alternative route through Oxford to avoid congestion at Reading";
       alt_kpis := {| delayReduction := 8%Q; throughput := 95%Q; safety := "high";
                      cost := Some 1200%Q; passengerImpact := Some 15%Q |};
       alt_estimatedDuration := Some 45%Q;
       alt_riskLevel := Some RiskLow |};
    {| alt_id := "alt-002";
       alt_action := "Priority scheduling at next junction";
       alt_description :=
         Some "Give train priority at next signal to minimize further delays";
       alt_kpis := {| delayReduction := 5%Q; throughput := 88%Q; safety := "medium";
                      cost := Some 300%Q; passengerImpact := Some 8%Q |};
       alt_estimatedDuration := Some 15%Q;
       alt_riskLevel := Some RiskMedium |} ].

(** [createdAt] is the time at which the module was loaded. *)
Definition mockRecommendations (loaded : string) : list Recommendation :=
  [ {| rec_id := "rec-001";
       rec_trainId := Some "train-001";
       rec_action := "Implement dynamic rerouting for IC-2847";
       rec_rationale :=
         "Train IC-2847 is experiencing 12-minute delay due to signal failure at Reading. Rerouting via Oxford will reduce delay and improve overall network throughput.";
       rec_confidence := (87 # 100)%Q;
       rec_kpis := {| delayReduction := 8%Q; throughput := 95%Q; safety := "high";
                      cost := Some 1200%Q; passengerImpact := Some 15%Q |};
       rec_alternatives := mockAlternatives;
       rec_createdAt := Some loaded;
       rec_priority := Some PHigh;
       rec_status := Some Pending;
       rec_estimatedImpact :=
         Some {| ei_delayReduction := 8%Q; ei_costSavings := 2500%Q;
                 ei_passengerBenefit := 287%Q |} |} ].

(** ** Vocabulary of the statements *)

Arguments show : simpl never.
Arguments defaultOptions : simpl never.

(** *** Looking things up in the store and in a run *)

(** [state.recommendations.find(r => r.id === recId)] and its siblings. *)
Definition findRecommendation (recId : string) (s : StoreState) : option Recommendation :=
  find (fun r => String.eqb (rec_id r) recId) (recommendations s).

Definition findAlternative (altId : string) (r : Recommendation) : option Alternative :=
  find (fun a => String.eqb (alt_id a) altId) (rec_alternatives r).

Definition findSession (sessionId : string) (s : StoreState) : option ChatSession :=
  find (fun c => String.eqb (chat_sessionId c) sessionId) (chatSessions s).

(** The messages the store shows for a session (none for an unknown one). *)
Definition messagesOf (sessionId : string) (s : StoreState) : list ChatbotMessage :=
  from_option chat_messages [] (findSession sessionId s).

(** The audit entry at the head of the log refers to [recId]. *)
Definition head_refers (recId : string) (s : StoreState) : Prop :=
  exists entry, head (auditLogs s) = Some entry /\ log_recId entry = Some recId.

(** The header [name] of the first request sent. *)
Definition sent_header {A} (name : string) (r : Run A) : option string :=
  match requests r with
  | req :: _ =>
      match headers (req_init req) with
      | Some h => h !! name
      | None => None
      end
  | [] => None
  end.

(** *** Runs one after the other, replies and rejections *)

(** [r] followed by [k], which runs only when [r] resolved. *)
Definition and_then {A B} (r : Run A) (k : A -> StoreState -> nat -> Run B) : Run B :=
  match settled r with
  | inl e =>
      {| settled := inl e; store := store r; clock := clock r;
         commits := commits r; requests := requests r; logged := logged r |}
  | inr a =>
      let r' := k a (store r) (clock r) in
      {| settled := settled r'; store := store r'; clock := clock r';
         commits := commits r ++ commits r';
         requests := requests r ++ requests r';
         logged := logged r ++ logged r' |}
  end.

(** [r] followed by [h], which runs only when [r] rejected. *)
Definition or_catch {A} (r : Run A) (h : JsError -> StoreState -> nat -> Run A) : Run A :=
  match settled r with
  | inr a => r
  | inl e =>
      let r' := h e (store r) (clock r) in
      {| settled := settled r'; store := store r'; clock := clock r';
         commits := commits r ++ commits r';
         requests := requests r ++ requests r';
         logged := logged r ++ logged r' |}
  end.

(** A task taken to its end: the reply it waits for arrives and the rest
    runs without interruption. *)
Definition finish {A} (w : World) (t : Task A * StoreState * nat)
  : (JsError + A) * StoreState * nat :=
  match t with
  | (Settled r, s, n) => (r, s, n)
  | (Awaiting T url init k, s, n) =>
      let r := run w (k (network w n T url init)) s (S n) in
      (settled r, store r, clock r)
  end.

(** The promise of [p], started as the [n]-th effect, rejects. *)
Definition rejects {A} (w : World) (p : Proc A) (n : nat) : Prop :=
  forall s, exists e, settled (run w p s n) = inl e.

(** What [apiFetch] returns for a reply: the parsed body of a response in
    the success range; every other reply makes it throw. *)
Definition delivered {T} (reply : FetchReply T) : option T :=
  match reply with
  | NetworkError _ => None
  | Response status json =>
      if ok status then match json with inl _ => None | inr body => Some body end
      else None
  end.

(** *** Decisions *)

(** The three recommendation-decision actions. *)
Inductive Decision :=
| Accept (recId : string)
| Override (recId altId : string)
| Reject (recId reason : string).

Definition decide_ (d : Decision) : Proc unit :=
  match d with
  | Accept recId => useStore.acceptRecommendation recId
  | Override recId altId => useStore.overrideRecommendation recId altId
  | Reject recId reason => useStore.rejectRecommendation recId reason
  end.

(** The decision names a recommendation (and alternative) of the store. *)
Definition resolvable (d : Decision) (s : StoreState) : Prop :=
  match d with
  | Accept recId | Reject recId _ => is_Some (findRecommendation recId s)
  | Override recId altId =>
      is_Some (findRecommendation recId s ≫= findAlternative altId)
  end.

(** The audit entry a decision builds and hands to [postAudit], from the
    recommendation (and alternative) it found when it was called. *)
Definition decision_entry (d : Decision) (s : StoreState) : option AuditDraft :=
  match d with
  | Accept recId =>
      recommendation ← findRecommendation recId s;
      Some (auditService.createAuditLog
              "Recommendation Accepted" "System User"
              (Some (JObj [("recommendationId", JStr recId);
                           ("action", JStr (rec_action recommendation))]))
              (rec_trainId recommendation) (Some recId)
              (Some "User accepted AI recommendation"))
  | Override recId altId =>
      recommendation ← findRecommendation recId s;
      alternative ← findAlternative altId recommendation;
      Some (auditService.createAuditLog
              "Recommendation Overridden" "System User"
              (Some (JObj [("recommendationId", JStr recId);
                           ("alternativeId", JStr altId);
                           ("originalAction", JStr (rec_action recommendation));
                           ("selectedAction", JStr (alt_action alternative))]))
              (rec_trainId recommendation) (Some recId)
              (Some ("User selected alternative: " +:+ alt_action alternative)))
  | Reject recId reason =>
      recommendation ← findRecommendation recId s;
      Some (auditService.createAuditLog
              "Recommendation Rejected" "System User"
              (Some (JObj [("recommendationId", JStr recId);
                           ("action", JStr (rec_action recommendation))]))
              (rec_trainId recommendation) (Some recId)
              (Some reason))
  end.

(** *** Fetch actions *)

Inductive FetchAction :=
| FetchTrains
| FetchRecommendations
| FetchPredictions (trainIds : option (list string))
| FetchKpis
| FetchAuditLogs (filters : option FilterState).

Definition perform (a : FetchAction) : Proc unit :=
  match a with
  | FetchTrains => useStore.fetchTrains
  | FetchRecommendations => useStore.fetchRecommendations
  | FetchPredictions trainIds => useStore.fetchPredictions trainIds
  | FetchKpis => useStore.fetchKpis
  | FetchAuditLogs filters => useStore.fetchAuditLogs filters
  end.

(** The name of the collection an action replaces, which is also its key in
    [lastUpdated]. *)
Definition collection (a : FetchAction) : string :=
  match a with
  | FetchTrains => "trains"
  | FetchRecommendations => "recommendations"
  | FetchPredictions _ => "predictions"
  | FetchKpis => "kpis"
  | FetchAuditLogs _ => "auditLogs"
  end.

Definition failure_text (a : FetchAction) : string :=
  match a with
  | FetchTrains => "Failed to fetch trains"
  | FetchRecommendations => "Failed to fetch recommendations"
  | FetchPredictions _ => "Failed to fetch predictions"
  | FetchKpis => "Failed to fetch KPIs"
  | FetchAuditLogs _ => "Failed to fetch audit logs"
  end.

Inductive Collection :=
| Trains (l : list Train)
| Recommendations (l : list Recommendation)
| Predictions (l : list Prediction)
| Kpis (l : list KPI)
| AuditLogs (l : list AuditLog).

(** The collection of the store an action is about. *)
Definition shown (a : FetchAction) (s : StoreState) : Collection :=
  match a with
  | FetchTrains => Trains (trains s)
  | FetchRecommendations => Recommendations (recommendations s)
  | FetchPredictions _ => Predictions (predictions s)
  | FetchKpis => Kpis (kpis s)
  | FetchAuditLogs _ => AuditLogs (auditLogs s)
  end.

(** The adapter call an action awaits, in the state it makes the call. *)
Definition awaited (a : FetchAction) (s : StoreState) : Proc Collection :=
  match a with
  | FetchTrains =>
      let* response := apiGet TrainsT "/trains" in Ret (Trains (data response))
  | FetchRecommendations =>
      let* response := apiGet RecommendationsT "/recommendations" in
      Ret (Recommendations (data response))
  | FetchPredictions trainIds =>
      let selected :=
        match trainIds with
        | Some ids => List.filter (fun t => existsb (String.eqb (train_id t)) ids) (trains s)
        | None => trains s
        end in
      let* predictions := predictionService.getPredictionsForTrains selected in
      Ret (Predictions predictions)
  | FetchKpis =>
      let* response := apiGet KpisT "/kpis" in Ret (Kpis (data response))
  | FetchAuditLogs filters =>
      let* logs := auditService.getAudit filters in Ret (AuditLogs logs)
  end.

(** *** Operations on the audit log *)

(** The store's operations that create audit entries. *)
Inductive AuditOp :=
| AddAuditLog (log : AuditLog)
| Decide (d : Decision)
| Simulate (payload : WhatIfPayload).

Definition audit_op (o : AuditOp) : Proc unit :=
  match o with
  | AddAuditLog log => useStore.addAuditLog log
  | Decide d => decide_ d
  | Simulate payload => useStore.runSimulation payload >> Ret tt
  end.


(** Requests to [POST /audit] handled one after the other, each with the
    handler's clock at its time. *)
Fixpoint post_all (storage : list AuditLog)
    (posts : list ((JsError + AuditBody) * auditRoute.Clock)) : list AuditLog :=
  match posts with
  | [] => storage
  | (request, c) :: rest => post_all (auditRoute.POST storage request c).2 rest
  end.


(** The body of the only request [postAudit] sends. *)
Definition posted_entry (w : World) (log : AuditDraft) (s : StoreState) (n : nat)
  : option AuditBody :=
  match requests (run w (auditService.postAudit log) s n) with
  | [req] =>
      match body (req_init req) with
      | Some (AuditEntry entry) => Some entry
      | _ => None
      end
  | _ => None
  end.

(** *** Conversations *)

(** The options the chat adapter hands to [apiFetch]. *)
Definition chat_request (sid text sent : string) : RequestInit :=
  defaultOptions
    {| method := Some "POST"; headers := None;
       body := Some (ChatMessage sid text sent) |}.

(** The messages the chat adapter resolves with for a reply: the server's,
    or its own single apology when the reply is a failure. *)
Definition answers (reply : FetchReply (ApiResponse (list ChatbotResponse)))
    (rs : list ChatbotMessage) : Prop :=
  match delivered reply with
  | Some envelope => rs = data envelope
  | None => exists m, rs = [m] /\
                      msg_role m = Assistant /\
                      msg_text m = chatbotService.apology /\
                      msg_confidence m = Some 0%Q
  end.

(** One turn of a conversation: the user's message [u] with [text], and the
    messages [rs] that answer a request made for this session and text. *)
Definition chat_turn (w : World) (sid text : string) (u : ChatbotMessage)
    (rs : list ChatbotMessage) : Prop :=
  msg_role u = User /\ msg_text u = text /\
  exists m url sent, answers (network w m ChatT url (chat_request sid text sent)) rs.

Definition answered (rs : list ChatbotMessage) : Prop :=
  rs <> [] /\ Forall (fun x => msg_role x = Assistant) rs.

(** A server whose chat endpoint, when it answers, sends at least one
    message, all from the assistant. *)
Definition assistant_server (w : World) : Prop :=
  forall m url init envelope,
    delivered (network w m ChatT url init) = Some envelope ->
    data envelope <> [] /\ Forall (fun x => msg_role x = Assistant) (data envelope).

(** Calls for one session, each awaited before the next is made. *)
Fixpoint send_all (sid : string) (texts : list string) : Proc unit :=
  match texts with
  | [] => Ret tt
  | text :: rest => useStore.sendChatMessage sid text >> send_all sid rest
  end.

(** The messages of a list of turns, in order. *)
Definition transcript (turns : list (ChatbotMessage * list ChatbotMessage))
  : list ChatbotMessage :=
  concat (map (fun turn => turn.1 :: turn.2) turns).

(** The session's messages only ever grow at the end, from [prev] through
    the states [states] to exactly [final]. *)
Fixpoint growing (sid : string) (prev : list ChatbotMessage) (states : list StoreState)
    (final : list ChatbotMessage) : Prop :=
  match states with
  | [] => prev = final
  | st :: rest =>
      prev `prefix_of` messagesOf sid st /\ growing sid (messagesOf sid st) rest final
  end.

(** What the rest of a suspended call does when its reply arrives, for the
    session [sid] that had the messages [old] and got the user's message [u]. *)
Definition resumable (w : World) (sid : string) (old : list ChatbotMessage)
    (u : ChatbotMessage)
    (k : FetchReply (ApiResponse (payload ChatT)) -> Proc unit) : Prop :=
  forall reply sX nX,
    exists rs final sX' nX',
      advance w (k reply) sX nX = (Settled (inr tt), sX', nX') /\
      chatSessions sX'
      = map (fun c => if String.eqb (chat_sessionId c) sid then final else c)
            (chatSessions sX) /\
      chat_sessionId final = sid /\
      chat_messages final = old ++ u :: rs /\
      answers reply rs.

(** A call for [sid] in the pool, beside the store [st]: still waiting for
    its reply, or resolved with its turn at the end of the session. *)
Definition call_state (w : World) (sid text : string) (old : list ChatbotMessage)
    (u : ChatbotMessage) (url sent : string)
    (k : FetchReply (ApiResponse (payload ChatT)) -> Proc unit)
    (t : Task unit) (st : StoreState) : Prop :=
  is_Some (findSession sid st) /\
  (t = Awaiting ChatT url (chat_request sid text sent) k \/
   (t = Settled (inr tt) /\
    exists rs, messagesOf sid st = old ++ u :: rs /\ chat_turn w sid text u rs)).

(** The only difference between two stores is in the sessions of [sid]. *)
Definition footprint (sid : string) (st st' : StoreState) : Prop :=
  st' = st \/
  exists final,
    chat_sessionId final = sid /\
    chatSessions st'
    = map (fun c => if String.eqb (chat_sessionId c) sid then final else c)
          (chatSessions st).

(** Two calls started one after the other, then the replies in the order
    of the schedule (0 for the first call, 1 for the second). *)
Definition two_calls (w : World) (sidA textA sidB textB : string) (schedule : list nat)
    (s : StoreState) (n : nat) : list (Task unit) * StoreState * nat :=
  let '(tA, sA, nA) := advance w (useStore.sendChatMessage sidA textA) s n in
  let '(tB, sB, nB) := advance w (useStore.sendChatMessage sidB textB) sA nA in
  interleave w [tA; tB] schedule sB nB.

(** *** Worlds and data to run examples in *)

Definition clockOf (n : nat) : forall X, Runtime X -> X :=
  fun X q =>
    match q in Runtime X return X with
    | Date_now => (1700000000000 + Z.of_nat n)%Z
    | Date_toISOString => "2024-01-01T00:00:0" +:+ pretty n +:+ ".000Z"
    | Math_random_toString36 => "0.k3j5h2lq9xz"
    | NEXT_PUBLIC_API_BASE => None
    end.

Definition envelope {A} (a : A) : ApiResponse A :=
  {| data := a; success := true; message := None;
     timestamp := "2024-01-01T00:00:00.000Z"; metadata := None |}.

(** Every request fails in transit. *)
Definition offline : World :=
  {| runtime := clockOf;
     network := fun _ _ _ _ => NetworkError (Error "Failed to fetch") |}.

Definition greeting : ChatbotMessage :=
  {| msg_id := "msg-1-ai"; msg_role := Assistant;
     msg_text := "I'm here to help with railway network analysis.";
     msg_timestamp := "2024-01-01T00:00:00.000Z";
     msg_references := None; msg_intent := Some "general";
     msg_confidence := Some (7 # 10)%Q; msg_actionable := None |}.

(** A server that answers every request: [chat] from the chat endpoint,
    [logs] from the audit endpoint, empty collections elsewhere, and a
    response without a JSON body from the simulator. *)
Definition serving (chat : list ChatbotResponse) (logs : list AuditLog) : World :=
  {| runtime := clockOf;
     network := fun _ T _ _ =>
       match T return FetchReply (ApiResponse (payload T)) with
       | TrainsT => Response 200 (inr (envelope []))
       | RecommendationsT => Response 200 (inr (envelope []))
       | KpisT => Response 200 (inr (envelope []))
       | PredictionsT => Response 200 (inr (envelope []))
       | AuditLogsT => Response 200 (inr (envelope logs))
       | AuditIdT => Response 200 (inr (envelope "audit-1"))
       | ChatT => Response 200 (inr (envelope chat))
       | SimulationT => Response 500 (inl (Error "Unexpected end of JSON input"))
       end |}.

Definition online : World := serving [greeting] [].

(** A server like [online] that refuses the audit entries of [rec-001]. *)
Definition refusing : World :=
  {| runtime := clockOf;
     network := fun n T url init =>
       match body init with
       | Some (AuditEntry entry) =>
           if bool_decide (body_recId entry = Some "rec-001")
           then NetworkError (Error "Failed to fetch")
           else network online n T url init
       | _ => network online n T url init
       end |}.

(** A server whose chat endpoint answers with an empty list. *)
Definition silent : World := serving [] [].

(** The store after the seeded recommendations were fetched. *)
Definition seeded : StoreState :=
  with_recommendations (mockRecommendations "2024-01-01T00:00:00.000Z") initialState.

Definition acceptance : AuditDraft :=
  auditService.createAuditLog "Recommendation Accepted" "System User" None
    (Some "train-001") (Some "rec-001") (Some "User accepted AI recommendation").

Definition serverClock : auditRoute.Clock :=
  {| auditRoute.now := 1700000000999;
     auditRoute.random36 := "0.zy8x7w6v5u4";
     auditRoute.entryTime := "2024-01-01T00:00:09.999Z";
     auditRoute.replyTime := "2024-01-01T00:00:09.999Z" |}.

Definition archived (i : nat) : AuditLog :=
  stamp acceptance ("audit-" +:+ pretty i) "2023-12-31T00:00:00.000Z".

(** A storage at the endpoint's capacity. *)
Definition fullStorage : list AuditLog := map archived (seq 0 1000).

Definition newEntry : AuditBody :=
  auditService.audit_body
    (stamp acceptance "audit-1700000000000-k3j5h2lq9" "2024-01-01T00:00:02.000Z").

Definition twoPosts : list ((JsError + AuditBody) * auditRoute.Clock) :=
  [(inr newEntry, serverClock); (inr newEntry, serverClock)].

(** *** The specification's wording, where the code departs from it *)

(** C4, as the specification words it: a call for an unknown session leaves
    the store without a session of that id. *)
Definition fallback_not_inserted (w : World) (sid text : string) (s : StoreState) (n : nat)
  : Prop :=
  findSession sid s = None ->
  findSession sid (store (run w (useStore.sendChatMessage sid text) s n)) = None.

(** C5, as the specification words it: the posted body has neither id nor
    timestamp, and the entry the handler stores carries the id and the
    timestamp the server generated. *)
Definition server_assigns_identity (w : World) (log : AuditDraft) (s : StoreState) (n : nat)
    (storage : list AuditLog) (c : auditRoute.Clock) : Prop :=
  forall entry, posted_entry w log s n = Some entry ->
    body_id entry = None /\ body_timestamp entry = None /\
    forall stored rest,
      (auditRoute.POST storage (inr entry) c).2 = stored :: rest ->
      log_id stored = auditRoute.generatedId c /\
      log_timestamp stored = auditRoute.entryTime c.

(** C6, as the specification words it for the time stamp: a fetch that
    succeeded has stamped [lastUpdated] for its collection. *)
Definition stamps_collection (w : World) (a : FetchAction) (s : StoreState) (n : nat)
  : Prop :=
  let out := run w (perform a) s n in
  error (store out) = None -> is_Some (lastUpdated (store out) !! collection a).


(** C7, as the specification words it: after a call the session ends with
    the user's message followed by at least one assistant message. *)
Definition every_turn_is_answered (w : World) (sid text : string) (s : StoreState) (n : nat)
  : Prop :=
  exists u r rs,
    messagesOf sid (store (run w (useStore.sendChatMessage sid text) s n))
    = messagesOf sid s ++ u :: r :: rs /\
    msg_role u = User /\
    Forall (fun m => msg_role m = Assistant) (r :: rs).

(** *** Further vocabulary *)

(** The recommendation a decision is about. *)
Definition target (d : Decision) : string :=
  match d with
  | Accept recId | Override recId _ | Reject recId _ => recId
  end.

(** The status a resolved decision gives its recommendation. *)
Definition verdict (d : Decision) : RecStatus :=
  match d with
  | Accept _ | Override _ _ => Accepted
  | Reject _ _ => Rejected
  end.

(** Actions started one after the other without awaiting any: each runs up
    to its first request. *)
Fixpoint start_all (w : World) (ps : list (Proc unit)) (s : StoreState) (n : nat)
  : list (Task unit) * StoreState * nat :=
  match ps with
  | [] => ([], s, n)
  | p :: rest =>
      let '(t, s1, n1) := advance w p s n in
      let '(ts, s2, n2) := start_all w rest s1 n1 in
      (t :: ts, s2, n2)
  end.

(** The store while the replies arrive in the order of the schedule. *)
Definition in_flight (w : World) (ps : list (Proc unit)) (schedule : list nat)
    (s : StoreState) (n : nat) : list (Task unit) * StoreState * nat :=
  let '(pool, s', n') := start_all w ps s n in
  interleave w pool schedule s' n'.

(** What a fetch action shows for a reply: the data delivered, or what the
    store had. *)
Definition fetched {A} (reply : FetchReply (ApiResponse A)) (before : A) : A :=
  from_option data before (delivered reply).

(** What [await request.json()] gives the audit endpoint: an error when the
    body does not parse, else the JSON value: [null], an object, whose
    properties the handler reads, or a number, a string, a boolean or an
    array, of which every property the handler reads is [undefined]. *)
Inductive JsonBody :=
| BodyNull
| BodyObject (fields : AuditBody)
| BodyOther.

(** The handler's reading of the body, up to its first use: reading
    [body.action] of [null] throws, inside the handler's [try]. *)
Definition read_body (raw : JsError + JsonBody) : JsError + AuditBody :=
  match raw with
  | inl e => inl e
  | inr BodyNull => inl (Error "Cannot read properties of null (reading 'action')")
  | inr (BodyObject fields) => inr fields
  | inr BodyOther =>
      inr {| body_id := None; body_timestamp := None; body_action := None;
             body_actor := None; body_trainId := None; body_recId := None;
             body_reason := None; body_details := None; body_outcome := None;
             body_impactMetrics := None |}
  end.

(** What [POST /audit] does with the audit entry a request carries, if it
    carries one: the entry is accepted and stored at the head, under the id
    it was posted with, and the answer returns that id. *)
Definition stored_as_posted (storage : list AuditLog) (c : auditRoute.Clock)
    (req : Request) : Prop :=
  forall entry, body (req_init req) = Some (AuditEntry entry) ->
    req_shape req = AuditIdT /\
    exists stored rest response,
      auditRoute.POST storage (inr entry) c = (200%Z, inr response, stored :: rest) /\
      body_id entry = Some (log_id stored) /\
      data response = log_id stored /\
      log_actor stored = "System User".

(** The audit entry of a request, if it carries one, is a draft with an
    action, made by "System User" and stamped with an id "audit-...". *)
Definition store_draft (req : Request) : Prop :=
  forall entry, body (req_init req) = Some (AuditEntry entry) ->
    req_shape req = AuditIdT /\
    exists draft id iso,
      entry = auditService.audit_body (stamp draft ("audit-" +:+ id) iso) /\
      draft_action draft <> "" /\ draft_actor draft = "System User".

(** The number of KPIs counted under a status; a KPI without a status
    counts as good. *)
Definition counted (st : KpiStatus) (kpis : list KPI) : nat :=
  length (List.filter
            (fun k => String.eqb (kpisRoute.status_key (default Good (kpi_status k)))
                                 (kpisRoute.status_key st))
            kpis).

(** ** Execution of composed procedures *)

Lemma run_eta {A} (r : Run A) :
  r = {| settled := settled r; store := store r; clock := clock r;
         commits := commits r; requests := requests r; logged := logged r |}.
Proof. by destruct r. Qed.

Lemma run_bind {A B} (w : World) (p : Proc A) (f : A -> Proc B) s n :
  run w (bind p f) s n = and_then (run w p s n) (fun a s' n' => run w (f a) s' n').
Proof.
  revert s n.
  induction p as [a|e|k IH|g k IH|X q k IH|l k IH|T url init k IH]; intros s n; cbn [bind run].
  - unfold and_then; cbn. apply run_eta.
  - reflexivity.
  - apply IH.
  - rewrite IH. unfold and_then; cbn.
    destruct (settled (run w k (g s) n)); reflexivity.
  - apply IH.
  - rewrite IH. unfold and_then; cbn.
    destruct (settled (run w k s n)); reflexivity.
  - rewrite IH. unfold and_then; cbn.
    destruct (settled (run w (k (network w n T url init)) s (S n))); reflexivity.
Qed.

Lemma run_try_catch {A} (w : World) (p : Proc A) (h : JsError -> Proc A) s n :
  run w (try_catch p h) s n = or_catch (run w p s n) (fun e s' n' => run w (h e) s' n').
Proof.
  revert s n.
  induction p as [a|e|k IH|g k IH|X q k IH|l k IH|T url init k IH]; intros s n;
    cbn [try_catch run].
  - reflexivity.
  - unfold or_catch; cbn. apply run_eta.
  - apply IH.
  - rewrite IH. unfold or_catch; cbn.
    destruct (run w k (g s) n) as [[e|a] ? ? ? ? ?]; reflexivity.
  - apply IH.
  - rewrite IH. unfold or_catch; cbn.
    destruct (run w k s n) as [[e|a] ? ? ? ? ?]; reflexivity.
  - rewrite IH. unfold or_catch; cbn.
    destruct (run w (k (network w n T url init)) s (S n)) as [[e|a] ? ? ? ? ?];
      reflexivity.
Qed.

(** A procedure whose [try] block cannot throw never enters its handler. *)
Lemma try_catch_unused {A} (w : World) (p : Proc A) (h : JsError -> Proc A) s n :
  (forall e, settled (run w p s n) <> inl e) ->
  run w (try_catch p h) s n = run w p s n.
Proof.
  intros Hok. rewrite run_try_catch. unfold or_catch.
  destruct (settled (run w p s n)) as [e|a] eqn:E; [by destruct (Hok e) | done].
Qed.

(** Running to completion is advancing to the next request and continuing
    from its reply: the two semantics agree. *)
Lemma run_advance {A} (w : World) (p : Proc A) s n :
  let r := run w p s n in
  finish w (advance w p s n) = (settled r, store r, clock r).
Proof.
  revert s n.
  induction p as [a|e|k IH|g k IH|X q k IH|l k IH|T url init k IH]; intros s n;
    cbn [advance run finish]; auto.
Qed.

(** ** Adapters *)

(** Case analysis on the reply to the request under way. *)
Ltac on_reply :=
  match goal with
  | |- context [network ?w ?n ?T ?u ?i] =>
      let status := fresh "status" in
      destruct (network w n T u i) as [?|status [?|?]]; cbn;
      try (destruct (ok status); cbn)
  end.

(** The same, keeping the reply as the equation [H]. *)
Ltac on_reply_eq H :=
  match goal with
  | |- context [network ?w ?n ?T ?u ?i] =>
      let status := fresh "status" in
      destruct (network w n T u i) as [?|status [?|?]] eqn:H; cbn;
      try (destruct (ok status) eqn:?; cbn)
  end.

(** [postAudit] leaves the store alone, sends one request and settles after
    five effects, whatever the outcome. *)
Lemma postAudit_frame (w : World) (log : AuditDraft) s n :
  let r := run w (auditService.postAudit log) s n in
  store r = s /\ commits r = [] /\ clock r = 5 + n /\ length (requests r) = 1.
Proof.
  cbn. on_reply; auto.
Qed.

(** Its outcome does not depend on the store it runs beside. *)
Lemma postAudit_settled_any_store (w : World) (log : AuditDraft) s s' n :
  settled (run w (auditService.postAudit log) s n) =
  settled (run w (auditService.postAudit log) s' n).
Proof.
  cbn. on_reply; auto.
Qed.

(** ** Recommendation decisions *)

Lemma resolvable_accept recId s :
  resolvable (Accept recId) s ->
  exists r, find (fun r => String.eqb (rec_id r) recId) (recommendations s) = Some r.
Proof. intros [r Hr]. by exists r. Qed.

Lemma resolvable_override recId altId s :
  resolvable (Override recId altId) s ->
  exists r a,
    find (fun r => String.eqb (rec_id r) recId) (recommendations s) = Some r /\
    find (fun a => String.eqb (alt_id a) altId) (rec_alternatives r) = Some a.
Proof.
  intros [a Ha]. unfold findRecommendation in Ha.
  destruct (find _ (recommendations s)) as [r|] eqn:Hr; [|discriminate].
  by exists r, a.
Qed.

(** C1: when the [postAudit] call a decision action awaits fails, the
    call made with the entry the action built for the recommendation it
    found, the action rejects after that one request; no state it commits
    changes a recommendation, so no status transition is ever committed and
    the target's status is as before; the store's error is set and
    [loading] is false: the audit write gates the status transition. *)
Theorem audit_failure_blocks_decision (w : World) (d : Decision) (s : StoreState) (n : nat) :
  resolvable d s ->
  (forall log, decision_entry d s = Some log -> rejects w (auditService.postAudit log) n) ->
  let out := run w (decide_ d) s n in
  (exists e, settled out = inl e) /\
  (exists log, decision_entry d s = Some log /\
               requests out = requests (run w (auditService.postAudit log) s n)) /\
  Forall (fun st => recommendations st = recommendations s /\ auditLogs st = auditLogs s)
         (commits out) /\
  recommendations (store out) = recommendations s /\
  (forall recId, rec_status <$> findRecommendation recId (store out)
                 = rec_status <$> findRecommendation recId s) /\
  (exists text, error (store out) = Some text) /\
  loading (store out) = false.
Proof.
  intros Hres Hrej.
  destruct d as [recId|recId altId|recId reason]; cbn [decide_].
  - destruct (resolvable_accept _ _ Hres) as [r Hr].
    unfold decision_entry, findRecommendation in Hrej. rewrite Hr in Hrej.
    destruct (Hrej _ eq_refl (with_error None (with_loading true s))) as [e He].
    clear Hrej. revert He.
    unfold useStore.acceptRecommendation, decision_entry, findRecommendation.
    cbn [run bind get]. rewrite Hr. cbn.
    on_reply_eq Hreply; intros He; try discriminate;
      (split; [eauto|]);
      (split; [eexists; split; [reflexivity|];
               cbn; rewrite Hreply; cbn;
               repeat match goal with H : ok _ = _ |- _ => rewrite H; clear H end;
               reflexivity|]);
      (split; [repeat constructor|]); eauto 10.
  - destruct (resolvable_override _ _ _ Hres) as (r & a & Hr & Ha).
    unfold decision_entry, findRecommendation, findAlternative in Hrej.
    rewrite Hr in Hrej. cbn [mbind option_bind] in Hrej. rewrite Ha in Hrej.
    destruct (Hrej _ eq_refl (with_error None (with_loading true s))) as [e He].
    clear Hrej. revert He.
    unfold useStore.overrideRecommendation, decision_entry, findRecommendation,
      findAlternative.
    cbn [run bind get]. rewrite Hr. cbn [mbind option_bind]. rewrite Ha. cbn.
    on_reply_eq Hreply; intros He; try discriminate;
      (split; [eauto|]);
      (split; [eexists; split; [reflexivity|];
               cbn; rewrite Hreply; cbn;
               repeat match goal with H : ok _ = _ |- _ => rewrite H; clear H end;
               reflexivity|]);
      (split; [repeat constructor|]); eauto 10.
  - destruct (resolvable_accept recId s Hres) as [r Hr].
    unfold decision_entry, findRecommendation in Hrej. rewrite Hr in Hrej.
    destruct (Hrej _ eq_refl (with_error None (with_loading true s))) as [e He].
    clear Hrej. revert He.
    unfold useStore.rejectRecommendation, decision_entry, findRecommendation.
    cbn [run bind get]. rewrite Hr. cbn.
    on_reply_eq Hreply; intros He; try discriminate;
      (split; [eauto|]);
      (split; [eexists; split; [reflexivity|];
               cbn; rewrite Hreply; cbn;
               repeat match goal with H : ok _ = _ |- _ => rewrite H; clear H end;
               reflexivity|]);
      (split; [repeat constructor|]); eauto 10.
Qed.

(** A server that refuses the audit entries of [rec-001] only: the awaited
    call fails while other entries would be stored, and [rec-001] stays
    pending in every state committed. *)
Lemma audit_failure_blocks_decision_witness :
  rec_status <$> findRecommendation "rec-001"
                   (store (run refusing (decide_ (Accept "rec-001")) seeded 0))
  = Some (Some Pending) /\
  Forall (fun st => recommendations st = recommendations seeded /\
                    auditLogs st = auditLogs seeded)
         (commits (run refusing (decide_ (Accept "rec-001")) seeded 0)).
Proof.
  assert (Hres : resolvable (Accept "rec-001") seeded) by (eexists; reflexivity).
  assert (Hrej : forall log, decision_entry (Accept "rec-001") seeded = Some log ->
                             rejects refusing (auditService.postAudit log) 0)
    by (intros log [= <-] s; eexists; reflexivity).
  destruct (audit_failure_blocks_decision refusing (Accept "rec-001") seeded 0 Hres Hrej)
    as (_ & _ & Hcommits & _ & Hstatus & _).
  split; [rewrite Hstatus; reflexivity|exact Hcommits].
Defined.

Lemma lookup_map {A B} (f : A -> B) (l : list A) (i : nat) :
  map f l !! i = f <$> (l !! i).
Proof.
  revert i. induction l as [|x l IH]; intros [|i]; cbn; auto.
Qed.

Lemma elem_of_map {A B} (f : A -> B) (l : list A) (y : B) :
  y ∈ map f l -> exists x, y = f x /\ x ∈ l.
Proof.
  rewrite list_elem_of_In, in_map_iff. intros (x & <- & Hx).
  exists x. by rewrite list_elem_of_In.
Qed.

(** With the recommendation (and alternative) present and the audit write
    accepted, a decision action resolves. *)
Lemma decision_resolves (w : World) (d : Decision) (s : StoreState) (n : nat) :
  resolvable d s ->
  (forall log s', settled (run w (auditService.postAudit log) s' n) = inr tt) ->
  settled (run w (decide_ d) s n) = inr tt.
Proof.
  intros Hres Hok.
  destruct d as [recId|recId altId|recId reason]; cbn [decide_].
  - destruct (resolvable_accept _ _ Hres) as [r Hr].
    unfold useStore.acceptRecommendation. cbn [run bind get]. rewrite Hr.
    match goal with |- context [auditService.postAudit ?l] =>
      generalize (Hok l (with_error None (with_loading true s))) end.
    cbn. on_reply; intros He; try discriminate; reflexivity.
  - destruct (resolvable_override _ _ _ Hres) as (r & a & Hr & Ha).
    unfold useStore.overrideRecommendation. cbn [run bind get]. rewrite Hr.
    cbn [mbind option_bind]. rewrite Ha.
    match goal with |- context [auditService.postAudit ?l] =>
      generalize (Hok l (with_error None (with_loading true s))) end.
    cbn. on_reply; intros He; try discriminate; reflexivity.
  - destruct (resolvable_accept recId s Hres) as [r Hr].
    unfold useStore.rejectRecommendation. cbn [run bind get]. rewrite Hr.
    match goal with |- context [auditService.postAudit ?l] =>
      generalize (Hok l (with_error None (with_loading true s))) end.
    cbn. on_reply; intros He; try discriminate; reflexivity.
Qed.

(** C2: after [acceptRecommendation recId] resolved, every recommendation
    with that id is accepted with its action text unchanged, the head of the
    audit log refers to [recId], and no state the store went through shows
    changed recommendations without that audit entry at the head. *)
Theorem accept_commits_status_with_audit (w : World) (recId : string) (s : StoreState)
    (n : nat) :
  let out := run w (useStore.acceptRecommendation recId) s n in
  settled out = inr tt ->
  (forall i r0, recommendations s !! i = Some r0 -> rec_id r0 = recId ->
     exists r1, recommendations (store out) !! i = Some r1 /\
                rec_status r1 = Some Accepted /\ rec_action r1 = rec_action r0) /\
  head_refers recId (store out) /\
  (forall st, st ∈ commits out ->
     (recommendations st = recommendations s /\ auditLogs st = auditLogs s) \/
     ((forall r, r ∈ recommendations st -> rec_id r = recId ->
                 rec_status r = Some Accepted) /\
      head_refers recId st)).
Proof.
  unfold useStore.acceptRecommendation. cbn [run bind get].
  destruct (find _ (recommendations s)) as [r|] eqn:Hr; [|discriminate].
  cbn. on_reply; intros He; try discriminate.
  assert (Hhead : forall st entry rest, auditLogs st = entry :: rest ->
            log_recId entry = Some recId -> head_refers recId st)
    by (intros st entry rest Hst Hid; exists entry; by rewrite Hst).
  split; [|split].
  - intros i r0 Hi <-. rewrite lookup_map, Hi. cbn.
    rewrite String.eqb_refl. eauto.
  - eapply Hhead; reflexivity.
  - intros st Hst. apply elem_of_cons in Hst as [->|Hst]; [left; by cbn|].
    apply list_elem_of_singleton in Hst as ->. right. split.
    + cbn. intros r' Hin Hid. apply elem_of_map in Hin as (x & -> & _).
      destruct (String.eqb (rec_id x) recId) eqn:E; [reflexivity|].
      apply String.eqb_neq in E. contradiction.
    + eapply Hhead; reflexivity.
Qed.

Lemma accept_commits_status_with_audit_witness :
  head_refers "rec-001"
    (store (run online (useStore.acceptRecommendation "rec-001") seeded 0)).
Proof.
  exact (proj1 (proj2
           (accept_commits_status_with_audit online "rec-001" seeded 0 eq_refl))).
Defined.

(** C3: after [overrideRecommendation recId altId] resolved, every
    recommendation with that id is accepted and carries the action text of
    the chosen alternative, and the head of the audit log refers to [recId]
    and records both the original and the selected action. *)
Theorem override_commits_alternative (w : World) (recId altId : string) (s : StoreState)
    (n : nat) :
  let out := run w (useStore.overrideRecommendation recId altId) s n in
  settled out = inr tt ->
  exists r a,
    findRecommendation recId s = Some r /\
    findAlternative altId r = Some a /\
    (forall i r0, recommendations s !! i = Some r0 -> rec_id r0 = recId ->
       exists r1, recommendations (store out) !! i = Some r1 /\
                  rec_status r1 = Some Accepted /\ rec_action r1 = alt_action a) /\
    (exists entry details,
       head (auditLogs (store out)) = Some entry /\
       log_recId entry = Some recId /\
       log_details entry = Some details /\
       json_field "originalAction" details = Some (JStr (rec_action r)) /\
       json_field "selectedAction" details = Some (JStr (alt_action a))).
Proof.
  unfold useStore.overrideRecommendation, findRecommendation. cbn [run bind get].
  destruct (find _ (recommendations s)) as [r|] eqn:Hr; [|discriminate].
  cbn [mbind option_bind]. unfold findAlternative.
  destruct (find _ (rec_alternatives r)) as [a|] eqn:Ha; [|discriminate].
  cbn. on_reply; intros He; try discriminate.
  exists r, a. repeat split; auto.
  - intros i r0 Hi <-. rewrite lookup_map, Hi. cbn.
    rewrite String.eqb_refl. eauto.
  - do 2 eexists. repeat split; reflexivity.
Qed.

(** The scenario of the seeded data: [rec-001] is pending and overridden by
    [alt-001], "Reroute via Oxford". *)
Lemma override_commits_alternative_witness :
  (fun r => (rec_status r, rec_action r))
    <$> recommendations
          (store (run online (useStore.overrideRecommendation "rec-001" "alt-001")
                    seeded 0)) !! 0
  = Some (Some Accepted, "Reroute via Oxford").
Proof.
  destruct (override_commits_alternative online "rec-001" "alt-001" seeded 0 eq_refl)
    as (r & a & Hr & Ha & Hrecs & _).
  injection Hr as <-. injection Ha as <-.
  destruct (Hrecs 0 _ eq_refl eq_refl) as (r1 & H1 & H2 & H3).
  rewrite H1. cbn. rewrite H2, H3. reflexivity.
Defined.

(** ** Chat *)

Section find_replace.
Context {A : Type}.
Implicit Types (f g : A -> bool) (l : list A).

Lemma find_existsb_true f l x : find f l = Some x -> existsb f l = true.
Proof.
  intros H. apply find_some in H as [Hin Hf].
  apply existsb_exists. eauto.
Qed.

Lemma find_existsb_false f l : find f l = None -> existsb f l = false.
Proof.
  induction l as [|x l IH]; cbn; [done|].
  destruct (f x); [discriminate|auto].
Qed.

Lemma find_app_hit f l l' x : find f l = Some x -> find f (l ++ l') = Some x.
Proof.
  induction l as [|y l IH]; cbn; [discriminate|].
  destruct (f y); auto.
Qed.

Lemma find_app_miss f l l' : find f l = None -> find f (l ++ l') = find f l'.
Proof.
  induction l as [|y l IH]; cbn; [done|].
  destruct (f y); [discriminate|auto].
Qed.

(** Replacing the elements that satisfy [f] by [y], which satisfies it too. *)
Lemma find_replace_hit f l x y :
  find f l = Some x -> f y = true ->
  find f (map (fun c => if f c then y else c) l) = Some y.
Proof.
  intros H Hy. induction l as [|c l IH]; cbn in *; [discriminate|].
  destruct (f c) eqn:E; cbn; [by rewrite Hy|]. rewrite E. auto.
Qed.

(** The replacement is invisible to a search for anything else. *)
Lemma find_replace_miss f g l y :
  (forall c, f c = true -> g c = false) -> g y = false ->
  find g (map (fun c => if f c then y else c) l) = find g l.
Proof.
  intros Hfg Hy. induction l as [|c l IH]; cbn; [done|].
  destruct (f c) eqn:E.
  - rewrite Hy, (Hfg c E). exact IH.
  - destruct (g c); [done|exact IH].
Qed.

(** Nothing is replaced where nothing is found. *)
Lemma find_replace_none f l y :
  find f l = None -> map (fun c => if f c then y else c) l = l.
Proof.
  intros H. induction l as [|c l IH]; cbn in *; [done|].
  destruct (f c); [discriminate|]. by rewrite IH.
Qed.

Lemma find_snoc_miss g l y : g y = false -> find g (l ++ [y]) = find g l.
Proof.
  intros Hy. destruct (find g l) as [x|] eqn:E.
  - by apply find_app_hit.
  - rewrite (find_app_miss g l [y] E). cbn. by rewrite Hy.
Qed.
End find_replace.

(** The chat adapter resolves whatever the transport does, leaves the store
    alone and sends one request; a failed request is answered with the
    adapter's own apology. *)
Lemma chatbot_resolves (w : World) (sid text : string) s n :
  let r := run w (chatbotService.sendChatMessage sid text) s n in
  exists rs url sent,
    settled r = inr rs /\ store r = s /\ commits r = [] /\ n <= clock r /\
    answers (network w (2 + n) ChatT url (chat_request sid text sent)) rs.
Proof.
  cbn. unfold answers, chat_request.
  match goal with
  | |- context [network w ?k ChatT ?u
                  (defaultOptions {| method := ?me; headers := ?h;
                                     body := Some (ChatMessage ?a ?b ?t) |})] =>
      exists
        (match delivered (network w k ChatT u
                            (defaultOptions {| method := me; headers := h;
                                               body := Some (ChatMessage a b t) |})) with
         | Some envelope => data envelope
         | None =>
             [ {| msg_id := "error-" +:+ show (runtime w (3 + n) _ Date_now);
                  msg_role := Assistant;
                  msg_text := chatbotService.apology;
                  msg_timestamp := runtime w (4 + n) _ Date_toISOString;
                  msg_references := None; msg_intent := None;
                  msg_confidence := Some 0%Q; msg_actionable := None |} ]
         end), u, t
  end.
  on_reply; repeat split; try reflexivity; try lia; cbn; eauto 10.
Qed.

Lemma chatbot_reply (w : World) (sid text : string) s n :
  let r := run w (chatbotService.sendChatMessage sid text) s n in
  exists url init,
    requests r = [{| req_shape := ChatT; req_url := url; req_init := init |}] /\
    match delivered (network w (2 + n) ChatT url init) with
    | Some envelope => settled r = inr (data envelope)
    | None => exists m, settled r = inr [m] /\
                        msg_role m = Assistant /\
                        msg_text m = chatbotService.apology /\
                        msg_confidence m = Some 0%Q
    end.
Proof.
  cbn. match goal with |- context [network w _ ChatT ?u ?i] => exists u, i end.
  on_reply; (split; [reflexivity|]); try reflexivity;
    eexists; repeat split; reflexivity.
Qed.

Arguments chatbotService.sendChatMessage : simpl never.

(** The [try] block of the store's [sendChatMessage], with its handler. *)
Lemma sendChatMessage_try_run (w : World) (sid text : string) (session : ChatSession) s n :
  let same (c : ChatSession) := String.eqb (chat_sessionId c) sid in
  let out := run w (try_catch (useStore.sendChatMessage_try sid text session)
                              (useStore.sendChatMessage_catch sid)) s n in
  exists u rs updated final s1 s' m,
    msg_role u = User /\ msg_text u = text /\
    settled (run w (chatbotService.sendChatMessage sid text) s' m) = inr rs /\
    (exists url sent, answers (network w (2 + m) ChatT url (chat_request sid text sent)) rs) /\
    chat_sessionId updated = chat_sessionId session /\
    chat_messages updated = chat_messages session ++ [u] /\
    chat_sessionId final = chat_sessionId session /\
    chat_messages final = chat_messages session ++ u :: rs /\
    chatSessions s1 =
      (if existsb same (chatSessions s)
       then map (fun c => if same c then updated else c) (chatSessions s)
       else chatSessions s ++ [updated]) /\
    chatSessions (store out) = map (fun c => if same c then final else c) (chatSessions s1) /\
    settled out = inr tt /\
    commits out = [s1; store out] /\
    n <= clock out.
Proof.
  intros same out. subst out. unfold useStore.sendChatMessage_try. cbn.
  rewrite run_try_catch, run_bind.
  pose (u := {| msg_id := "msg-" +:+ show (runtime w n _ Date_now) +:+ "-user";
                msg_role := User; msg_text := text;
                msg_timestamp := runtime w (S n) _ Date_toISOString;
                msg_references := None; msg_intent := None;
                msg_confidence := None; msg_actionable := None |}).
  pose (updated := with_messages (chat_messages session ++ [u])
                     (runtime w (S (S n)) _ Date_toISOString) session).
  match goal with |- context [run w (chatbotService.sendChatMessage sid text) ?s1 ?m] =>
    destruct (chatbot_resolves w sid text s1 m)
      as (rs & url & sent & Hrs & Hst & Hcm & Hclock & Hans);
    exists u, rs, updated,
      (with_messages (chat_messages updated ++ rs)
         (runtime w (clock (run w (chatbotService.sendChatMessage sid text) s1 m)) _
            Date_toISOString) updated),
      s1, s1, m
  end.
  unfold or_catch, and_then. rewrite Hrs. cbn. rewrite Hst, Hcm. cbn.
  repeat split; try reflexivity.
  - eauto.
  - by rewrite <- app_assoc.
  - lia.
Qed.

Lemma same_session_eq (sid : string) (c : ChatSession) :
  String.eqb (chat_sessionId c) sid = true <-> chat_sessionId c = sid.
Proof. apply String.eqb_eq. Qed.

Lemma other_session (sid sid' : string) (c : ChatSession) :
  sid' <> sid -> String.eqb (chat_sessionId c) sid = true ->
  String.eqb (chat_sessionId c) sid' = false.
Proof.
  intros Hne ->%String.eqb_eq. apply String.eqb_neq. congruence.
Qed.

(** One call of the store's [sendChatMessage], completed: it resolves; its
    first commit shows the user's message at the end of the session, its
    second and last commit the adapter's messages after it; no other
    session is touched. *)
Lemma sendChatMessage_run (w : World) (sid text : string) s n :
  let out := run w (useStore.sendChatMessage sid text) s n in
  exists u rs s' m s1,
    settled out = inr tt /\
    msg_role u = User /\ msg_text u = text /\
    settled (run w (chatbotService.sendChatMessage sid text) s' m) = inr rs /\
    chat_turn w sid text u rs /\
    commits out = [s1; store out] /\
    (exists inserted, findSession sid s1 = Some inserted /\
                      chat_messages inserted = messagesOf sid s ++ [u]) /\
    (exists final, findSession sid (store out) = Some final /\
                   chat_messages final = messagesOf sid s ++ u :: rs) /\
    (forall sid', sid' <> sid ->
       findSession sid' s1 = findSession sid' s /\
       findSession sid' (store out) = findSession sid' s) /\
    n <= clock out.
Proof.
  unfold useStore.sendChatMessage. cbn [run bind get].
  unfold messagesOf, findSession.
  destruct (find _ (chatSessions s)) as [c|] eqn:Hfind; cbn [run bind from_option].
  - destruct (sendChatMessage_try_run w sid text c s n)
      as (u & rs & updated & final & s1 & s' & m & Hu & Ht & Hrs & (url & sent & Hans) &
          Hid & Hmsgs & Hid' & Hmsgs' & Hs1 & Hout & Hsettled & Hcommits & Hclock).
    pose proof (find_some _ _ Hfind) as [_ Hc%same_session_eq].
    rewrite (find_existsb_true _ _ _ Hfind) in Hs1.
    assert (Hupd : String.eqb (chat_sessionId updated) sid = true)
      by (apply same_session_eq; congruence).
    assert (Hfin : String.eqb (chat_sessionId final) sid = true)
      by (apply same_session_eq; congruence).
    assert (H1 : find (fun c => String.eqb (chat_sessionId c) sid) (chatSessions s1)
                 = Some updated)
      by (rewrite Hs1; eapply find_replace_hit; eauto).
    exists u, rs, s', m, s1. repeat split; auto.
    + eauto.
    + eauto.
    + exists final. split; [|done]. rewrite Hout. eapply find_replace_hit; eauto.
    + rewrite Hs1. apply find_replace_miss.
      * intros c'. by apply (other_session sid sid').
      * by apply (other_session sid sid').
    + rewrite Hout, find_replace_miss.
      * rewrite Hs1. apply find_replace_miss.
        -- intros c'. by apply (other_session sid sid').
        -- by apply (other_session sid sid').
      * intros c'. by apply (other_session sid sid').
      * by apply (other_session sid sid').
  - cbn [run bind sys].
    match goal with |- context [try_catch (useStore.sendChatMessage_try sid text ?c) _] =>
      destruct (sendChatMessage_try_run w sid text c s (S (S n)))
        as (u & rs & updated & final & s1 & s' & m & Hu & Ht & Hrs & (url & sent & Hans) &
            Hid & Hmsgs & Hid' & Hmsgs' & Hs1 & Hout & Hsettled & Hcommits & Hclock)
    end.
    cbn in Hid, Hmsgs, Hid', Hmsgs'.
    rewrite (find_existsb_false _ _ Hfind) in Hs1.
    assert (Hupd : String.eqb (chat_sessionId updated) sid = true)
      by (by apply same_session_eq).
    assert (Hfin : String.eqb (chat_sessionId final) sid = true)
      by (by apply same_session_eq).
    assert (H1 : find (fun c => String.eqb (chat_sessionId c) sid) (chatSessions s1)
                 = Some updated)
      by (rewrite Hs1, (find_app_miss _ _ _ Hfind); cbn; by rewrite Hupd).
    exists u, rs, s', m, s1. repeat split; auto.
    + eauto.
    + eauto.
    + exists final. split; [|done]. rewrite Hout. eapply find_replace_hit; eauto.
    + rewrite Hs1. apply find_snoc_miss. by apply (other_session sid sid').
    + rewrite Hout, find_replace_miss.
      * rewrite Hs1. apply find_snoc_miss. by apply (other_session sid sid').
      * intros c'. by apply (other_session sid sid').
      * by apply (other_session sid sid').
    + lia.
Qed.

(** The store does gain the session, in the empty store for one. *)
Lemma fallback_not_inserted_fails :
  ~ fallback_not_inserted offline "session-1" "Where is IC-2847?" initialState 0.
Proof.
  intros H. specialize (H eq_refl). vm_compute in H. discriminate.
Qed.

(** C4, amended: a call for an unknown session appends the session built for
    it, holding the user's message, to the store's sessions before the chat
    request is sent; when the call is over that session is still the last
    of the store's sessions, found under its id, and holds the user's
    message followed by the messages that answer the reply to that request:
    the server's, or the adapter's apology. *)
Theorem fallback_session_is_inserted (w : World) (sid text : string) (s : StoreState)
    (n : nat) :
  findSession sid s = None ->
  let out := run w (useStore.sendChatMessage sid text) s n in
  exists url init k s1 n1 inserted u final rs,
    advance w (useStore.sendChatMessage sid text) s n
      = (Awaiting ChatT url init k, s1, n1) /\
    chatSessions s1 = chatSessions s ++ [inserted] /\
    chat_sessionId inserted = sid /\
    chat_messages inserted = [u] /\
    msg_role u = User /\ msg_text u = text /\
    settled out = inr tt /\
    chatSessions (store out) = chatSessions s ++ [final] /\
    findSession sid (store out) = Some final /\
    chat_sessionId final = sid /\
    chat_messages final = u :: rs /\
    answers (network w n1 ChatT url init) rs.
Proof.
  intros Hnone. unfold findSession in Hnone.
  unfold useStore.sendChatMessage, useStore.sendChatMessage_try,
    chatbotService.sendChatMessage, findSession, answers.
  cbn. rewrite Hnone. cbn. rewrite (find_existsb_false _ _ Hnone).
  on_reply_eq Hreply.
  all: do 9 eexists; split; [reflexivity|].
  all: cbn; rewrite Hreply; cbn;
    repeat match goal with H : ok _ = _ |- _ => rewrite H; clear H end.
  all: do 6 (split; [reflexivity|]).
  all: rewrite map_app, (find_replace_none _ _ _ Hnone); cbn; rewrite String.eqb_refl.
  all: split; [reflexivity|].
  all: split; [rewrite (find_app_miss _ _ _ Hnone); cbn; by rewrite String.eqb_refl|].
  all: split; [reflexivity|]; split; [reflexivity|]; eauto 10.
Qed.

Lemma fallback_session_is_inserted_witness :
  exists final,
    findSession "session-1"
      (store (run offline (useStore.sendChatMessage "session-1" "Where is IC-2847?")
                initialState 0)) = Some final /\
    map msg_role (chat_messages final) = [User; Assistant].
Proof.
  destruct (fallback_session_is_inserted offline "session-1" "Where is IC-2847?"
              initialState 0 eq_refl)
    as (url & init & k & s1 & n1 & inserted & u & final & rs &
        _ & _ & _ & _ & Hu & _ & _ & _ & Hf & _ & Hm & Hrs).
  exists final. split; [exact Hf|].
  cbn in Hrs. destruct Hrs as (m & -> & Hrole & _).
  rewrite Hm. cbn. by rewrite Hu, Hrole.
Defined.

(** The [try] block of the store's [sendChatMessage] cannot throw. *)
Lemma sendChatMessage_try_resolves (w : World) (sid text : string) (session : ChatSession)
    s n :
  settled (run w (useStore.sendChatMessage_try sid text session) s n) = inr tt.
Proof.
  unfold useStore.sendChatMessage_try. cbn. rewrite run_bind.
  match goal with |- context [run w (chatbotService.sendChatMessage sid text) ?s1 ?m] =>
    destruct (chatbot_resolves w sid text s1 m) as (rs & _ & _ & Hrs & _)
  end.
  unfold and_then. rewrite Hrs. reflexivity.
Qed.

(** C10: the chat adapter's [sendChatMessage] never rejects: it resolves with
    the server's messages, or, when the request fails in any way, with one
    assistant message of confidence 0 carrying the adapter's apology.  Hence
    the [try] block of the store's [sendChatMessage] never throws, its
    handler is never entered, and the messages the store appends after the
    user's are the adapter's; the adapter's apology is not the store's. *)
Theorem chat_adapter_never_rejects (w : World) (sid text : string) :
  (forall s n,
     let r := run w (chatbotService.sendChatMessage sid text) s n in
     exists url init,
       requests r = [{| req_shape := ChatT; req_url := url; req_init := init |}] /\
       match delivered (network w (2 + n) ChatT url init) with
       | Some envelope => settled r = inr (data envelope)
       | None => exists m, settled r = inr [m] /\
                           msg_role m = Assistant /\
                           msg_text m = chatbotService.apology /\
                           msg_confidence m = Some 0%Q
       end) /\
  (forall session h s n,
     settled (run w (useStore.sendChatMessage_try sid text session) s n) = inr tt /\
     run w (try_catch (useStore.sendChatMessage_try sid text session) h) s n
     = run w (useStore.sendChatMessage_try sid text session) s n) /\
  (forall s n,
     let out := run w (useStore.sendChatMessage sid text) s n in
     exists u rs s' m,
       settled out = inr tt /\
       settled (run w (chatbotService.sendChatMessage sid text) s' m) = inr rs /\
       messagesOf sid (store out) = messagesOf sid s ++ u :: rs /\
       length (commits out) = 2) /\
  chatbotService.apology <> useStore.storeApology.
Proof.
  repeat split.
  - apply chatbot_reply.
  - apply sendChatMessage_try_resolves.
  - apply try_catch_unused. intros e.
    rewrite sendChatMessage_try_resolves. discriminate.
  - intros s n.
    destruct (sendChatMessage_run w sid text s n)
      as (u & rs & s' & m & s1 & Hok & _ & _ & Hrs & _ & Hcommits & _ & (final & Hf & Hm) & _).
    exists u, rs, s', m. repeat split; auto.
    + unfold messagesOf at 1. by rewrite Hf.
    + by rewrite Hcommits.
  - discriminate.
Qed.

(** ** Transport *)

(** C9: [apiFetch] builds the merged headers and then spreads the caller's
    options over them, so a caller that supplies [headers] replaces the
    merged object: the request carries the caller's headers alone, and the
    default [Content-Type] is sent only when the caller repeats it. *)
Theorem caller_headers_replace_defaults (w : World) (T : Shape) (url : string)
    (options : RequestInit) (h : gmap string string) (s : StoreState) (n : nat) :
  headers options = Some h ->
  requests (run w (apiFetch T url options) s n)
  = [ {| req_shape := T; req_url := url;
         req_init := {| method := method options; headers := Some h;
                        body := body options |} |} ].
Proof.
  intros Hh. unfold apiFetch, defaultOptions, spread_options. cbn. rewrite Hh.
  destruct (method options), (body options); on_reply; reflexivity.
Qed.

(** A caller that sends a bearer token loses the JSON content type. *)
Lemma caller_headers_replace_defaults_witness :
  sent_header "Content-Type"
    (run online
       (apiFetch TrainsT "/api/trains"
          {| method := Some "GET";
             headers := Some {[ "Authorization" := "Bearer token" ]};
             body := None |})
       initialState 0)
  = None.
Proof.
  unfold sent_header.
  rewrite (caller_headers_replace_defaults online TrainsT "/api/trains"
             {| method := Some "GET";
                headers := Some {[ "Authorization" := "Bearer token" ]};
                body := None |}
             {[ "Authorization" := "Bearer token" ]} initialState 0 eq_refl).
  reflexivity.
Defined.

(** Without caller headers the default is sent. *)
Lemma default_content_type (w : World) (T : Shape) (url : string)
    (options : RequestInit) (s : StoreState) (n : nat) :
  headers options = None ->
  sent_header "Content-Type" (run w (apiFetch T url options) s n)
  = Some "application/json".
Proof.
  intros Hh.
  unfold sent_header, apiFetch, defaultOptions, spread_options, spread_headers.
  cbn. rewrite Hh. apply lookup_singleton_eq.
Qed.

(** ** The audit write, end to end *)

Lemma server_assigns_identity_fails :
  ~ server_assigns_identity online acceptance initialState 0 [] serverClock.
Proof.
  intros H. destruct (H _ eq_refl) as [Hid _]. discriminate Hid.
Qed.

(** C5, amended: [postAudit] takes the entry without id and timestamp, adds
    an id and a timestamp of its own and posts them with the other fields;
    the handler stores the id and the timestamp of the request body when
    they are present and not empty, generates them otherwise, prepends the
    entry and answers with its id.  So the entry stored for a [postAudit]
    call carries the client's id. *)
Theorem audit_identity_comes_from_client (w : World) (log : AuditDraft) (s : StoreState)
    (n : nat) (storage : list AuditLog) (c : auditRoute.Clock) :
  draft_action log <> "" -> draft_actor log <> "" ->
  let id := "audit-" +:+ show (runtime w n _ Date_now) +:+ "-" +:+
            String.substring 2 9 (runtime w (1 + n) _ Math_random_toString36) in
  let iso := runtime w (2 + n) _ Date_toISOString in
  posted_entry w log s n = Some (auditService.audit_body (stamp log id iso)) /\
  (forall entry : AuditBody,
      auditRoute.truthy (body_action entry) = true ->
      auditRoute.truthy (body_actor entry) = true ->
      exists stored rest response,
        auditRoute.POST storage (inr entry) c = (200%Z, inr response, stored :: rest) /\
        data response = log_id stored /\
        log_id stored = auditRoute.or_else (body_id entry) (auditRoute.generatedId c) /\
        log_timestamp stored
        = auditRoute.or_else (body_timestamp entry) (auditRoute.entryTime c) /\
        log_action stored = default "" (body_action entry) /\
        log_actor stored = default "" (body_actor entry) /\
        log_reason stored = body_reason entry /\
        rest = take 999 storage) /\
  (exists stored rest response,
      auditRoute.POST storage (inr (auditService.audit_body (stamp log id iso))) c
      = (200%Z, inr response, stored :: rest) /\
      log_id stored = id /\
      log_timestamp stored = auditRoute.or_else (Some iso) (auditRoute.entryTime c) /\
      log_action stored = draft_action log /\
      log_actor stored = draft_actor log /\
      log_reason stored = draft_reason log).
Proof.
  intros Haction Hactor id iso.
  assert (Hpost : forall entry : AuditBody,
      auditRoute.truthy (body_action entry) = true ->
      auditRoute.truthy (body_actor entry) = true ->
      exists stored rest response,
        auditRoute.POST storage (inr entry) c = (200%Z, inr response, stored :: rest) /\
        data response = log_id stored /\
        log_id stored = auditRoute.or_else (body_id entry) (auditRoute.generatedId c) /\
        log_timestamp stored
        = auditRoute.or_else (body_timestamp entry) (auditRoute.entryTime c) /\
        log_action stored = default "" (body_action entry) /\
        log_actor stored = default "" (body_actor entry) /\
        log_reason stored = body_reason entry /\
        rest = take 999 storage).
  { intros entry Ha Hb. unfold auditRoute.POST. rewrite Ha, Hb. cbn [negb orb].
    cbn [length]. destruct (1000 <? S (length storage))%nat eqn:Hlen.
    - do 3 eexists. split; [reflexivity|]. cbn. auto 10.
    - do 3 eexists. split; [reflexivity|]. cbn. repeat split.
      apply Nat.ltb_ge in Hlen. symmetry. apply take_ge. lia. }
  split; [|split].
  - unfold posted_entry. cbn. on_reply; reflexivity.
  - exact Hpost.
  - destruct (Hpost (auditService.audit_body (stamp log id iso)))
      as (stored & rest & response & HP & _ & Hid & Hts & Ha & Hb & Hr & _).
    + cbn. by destruct (String.eqb_spec (draft_action log) "").
    + cbn. by destruct (String.eqb_spec (draft_actor log) "").
    + exists stored, rest, response. split; [exact HP|].
      split; [rewrite Hid; reflexivity|]. auto.
Qed.

Lemma audit_identity_comes_from_client_witness :
  exists stored rest response,
    auditRoute.POST []
      (inr (auditService.audit_body
              (stamp acceptance "audit-1700000000000-k3j5h2lq9"
                 "2024-01-01T00:00:02.000Z")))
      serverClock
    = (200%Z, inr response, stored :: rest) /\
    log_id stored = "audit-1700000000000-k3j5h2lq9".
Proof.
  destruct (audit_identity_comes_from_client online acceptance initialState 0 []
              serverClock)
    as (_ & _ & stored & rest & response & HP & Hid & _); [done|done|].
  exists stored, rest, response. split; [exact HP|exact Hid].
Defined.

(** ** Fetch actions *)

Lemma stamps_collection_fails :
  ~ stamps_collection online (FetchAuditLogs None) initialState 0.
Proof.
  intros H. destruct (H eq_refl) as [stamp_ Hstamp].
  vm_compute in Hstamp. discriminate.
Qed.

(** C6, amended: every fetch action first commits [loading = true] with the
    error cleared, always resolves and ends with [loading = false].  When the
    adapter call it awaits resolved, its collection is the adapter's result
    and the error stays cleared; [fetchTrains], [fetchRecommendations],
    [fetchPredictions] and [fetchKpis] then stamp [lastUpdated] for their
    collection, [fetchAuditLogs] leaves [lastUpdated] as it was.  When the
    call rejected, the error is the action's fixed text and the collection
    and [lastUpdated] are as before; the calls [fetchPredictions] and
    [fetchAuditLogs] await never reject, their adapters resolve with an
    empty collection when the request fails. *)
Theorem fetch_action_outcomes (w : World) (a : FetchAction) (s : StoreState) (n : nat) :
  let out := run w (perform a) s n in
  let started := with_error None (with_loading true s) in
  let call := run w (awaited a started) started n in
  settled out = inr tt /\
  head (commits out) = Some started /\
  loading started = true /\ error started = None /\
  loading (store out) = false /\
  match settled call with
  | inr result =>
      shown a (store out) = result /\
      error (store out) = None /\
      lastUpdated (store out)
      = match a with
        | FetchAuditLogs _ => lastUpdated s
        | _ => <[collection a := runtime w (clock call) _ Date_toISOString]> (lastUpdated s)
        end
  | inl _ =>
      shown a (store out) = shown a s /\
      error (store out) = Some (failure_text a) /\
      lastUpdated (store out) = lastUpdated s
  end /\
  match a with
  | FetchPredictions _ | FetchAuditLogs _ => exists result, settled call = inr result
  | _ => True
  end.
Proof.
  destruct a as [| |trainIds| |filters]; cbn; on_reply; eauto 12.
Qed.

(** ** The audit log *)





(** One [POST /audit] leaves the storage alone or puts one entry in front of
    it and cuts the result after 1000 entries. *)
Lemma POST_storage (storage : list AuditLog) (request : JsError + AuditBody)
    (c : auditRoute.Clock) :
  (auditRoute.POST storage request c).2 = storage \/
  exists entry, (auditRoute.POST storage request c).2 = take 1000 (entry :: storage).
Proof.
  unfold auditRoute.POST.
  destruct request as [[message]|entry]; [by left|].
  destruct (_ || _); [by left|]. right. cbn [snd length].
  destruct (1000 <? S (length storage))%nat eqn:Hlen; eexists; [reflexivity|].
  apply Nat.ltb_ge in Hlen. cbn [snd]. symmetry. apply take_ge. cbn [length]. lia.
Qed.







(** Two decisions in flight on the seeded store, the reply to the second
    handled first: both resolve, and the log holds the entry of the first
    only; the entry the second committed is gone. *)
Lemma decisions_in_flight_drop_entry :
  let '(pool, final, _) :=
    in_flight online
      [decide_ (Accept "rec-001"); decide_ (Reject "rec-001" "Safety concern")]
      [1; 0] seeded 0 in
  pool = [Settled (inr tt); Settled (inr tt)] /\
  map log_action (auditLogs final) = ["Recommendation Accepted"].
Proof. by vm_compute. Qed.



(** ** Conversations *)

Lemma every_turn_is_answered_fails :
  ~ every_turn_is_answered silent "session-1" "Where is IC-2847?" initialState 0.
Proof.
  intros (u & r & rs & H & _). vm_compute in H. discriminate.
Qed.

Lemma send_all_run (w : World) (sid : string) (texts : list string) s n :
  let out := run w (send_all sid texts) s n in
  settled out = inr tt /\
  (exists turns,
     Forall2 (fun text turn => chat_turn w sid text turn.1 turn.2) texts turns /\
     messagesOf sid (store out) = messagesOf sid s ++ transcript turns) /\
  (forall sid', sid' <> sid -> findSession sid' (store out) = findSession sid' s) /\
  growing sid (messagesOf sid s) (commits out) (messagesOf sid (store out)).
Proof.
  revert s n. induction texts as [|text texts IH]; intros s n; cbn [send_all].
  - cbn. repeat split; auto. exists []. split; [constructor|].
    unfold transcript. cbn. by rewrite app_nil_r.
  - rewrite run_bind.
    destruct (sendChatMessage_run w sid text s n)
      as (u & rs & s' & m & s1 & Hok & Hu & Ht & _ & Hturn & Hcommits &
          (inserted & Hins & Hinsm) & (final & Hfin & Hfinm) & Hothers & _).
    remember (run w (useStore.sendChatMessage sid text) s n) as r1 eqn:E1.
    destruct (IH (store r1) (clock r1)) as (Hok2 & (turns & Hturns & Hmsgs) & Hothers2 & Hgrow).
    remember (run w (send_all sid texts) (store r1) (clock r1)) as r2 eqn:E2.
    clear E1 IH.
    assert (H1 : messagesOf sid s1 = messagesOf sid s ++ [u])
      by (unfold messagesOf at 1; by rewrite Hins).
    assert (H2 : messagesOf sid (store r1) = messagesOf sid s ++ u :: rs)
      by (unfold messagesOf at 1; by rewrite Hfin).
    unfold and_then. rewrite Hok. cbn. rewrite <- E2. clear E2.
    split; [exact Hok2|]. split; [|split].
    + exists ((u, rs) :: turns). split; [by constructor|].
      rewrite Hmsgs, H2. unfold transcript. cbn. by rewrite <- app_assoc.
    + intros sid' Hne. rewrite (Hothers2 sid' Hne). by apply Hothers.
    + rewrite Hcommits. cbn. rewrite H1, H2. repeat split.
      * by apply prefix_app_r.
      * exists rs. by rewrite <- app_assoc.
      * rewrite <- H2. exact Hgrow.
Qed.

(** A call of the store's [sendChatMessage], up to its only await: the
    user's message is committed and the request is out.  Whatever the store
    has become when the reply arrives, the rest of the call replaces the
    sessions of this id, and only them, by the session as this call saw it
    plus the messages that answer the reply. *)
Lemma sendChatMessage_suspends (w : World) (sid text : string) s n :
  exists url sent k s1 n1 u,
    advance w (useStore.sendChatMessage sid text) s n
    = (Awaiting ChatT url (chat_request sid text sent) k, s1, n1) /\
    msg_role u = User /\ msg_text u = text /\
    (exists inserted, findSession sid s1 = Some inserted /\
                      chat_messages inserted = messagesOf sid s ++ [u]) /\
    (forall sid', sid' <> sid -> findSession sid' s1 = findSession sid' s) /\
    forall reply sX nX,
      exists rs final sX' nX',
        advance w (k reply) sX nX = (Settled (inr tt), sX', nX') /\
        chatSessions sX'
        = map (fun c => if String.eqb (chat_sessionId c) sid then final else c)
              (chatSessions sX) /\
        chat_sessionId final = sid /\
        chat_messages final = messagesOf sid s ++ u :: rs /\
        answers reply rs.
Proof.
  unfold useStore.sendChatMessage, useStore.sendChatMessage_try,
    chatbotService.sendChatMessage, messagesOf, findSession, answers, chat_request.
  cbn.
  destruct (find _ (chatSessions s)) as [c|] eqn:Hfind; cbn.
  - pose proof (find_some _ _ Hfind) as [_ Hc%same_session_eq].
    rewrite (find_existsb_true _ _ _ Hfind).
    eexists _, _, _, _, _,
      {| msg_id := "msg-" +:+ show (runtime w n _ Date_now) +:+ "-user";
         msg_role := User; msg_text := text;
         msg_timestamp := runtime w (S n) _ Date_toISOString;
         msg_references := None; msg_intent := None;
         msg_confidence := None; msg_actionable := None |}.
    split; [reflexivity|]. cbn. split; [reflexivity|].
    split; [reflexivity|]. split; [|split].
    + eexists. split;
        [eapply find_replace_hit; [exact Hfind|by apply same_session_eq]|reflexivity].
    + intros sid' Hne. apply find_replace_miss.
      * intros c'. by apply (other_session sid sid').
      * by apply (other_session sid sid'), same_session_eq.
    + intros [e|status [e|envelope]] sX nX; cbn; try destruct (ok status); cbn;
        do 4 eexists; (split; [reflexivity|]); cbn;
        (split; [reflexivity|]); (split; [exact Hc|]);
        (split; [by rewrite <- app_assoc|]); eauto 10.
  - rewrite (find_existsb_false _ _ Hfind).
    eexists _, _, _, _, _,
      {| msg_id := "msg-" +:+ show (runtime w (S (S n)) _ Date_now) +:+ "-user";
         msg_role := User; msg_text := text;
         msg_timestamp := runtime w (S (S (S n))) _ Date_toISOString;
         msg_references := None; msg_intent := None;
         msg_confidence := None; msg_actionable := None |}.
    split; [reflexivity|]. cbn. split; [reflexivity|].
    split; [reflexivity|]. split; [|split].
    + eexists. split;
        [rewrite (find_app_miss _ _ _ Hfind); cbn; by rewrite String.eqb_refl|reflexivity].
    + intros sid' Hne. apply find_snoc_miss.
      by apply (other_session sid sid'), same_session_eq.
    + intros [e|status [e|envelope]] sX nX; cbn; try destruct (ok status); cbn;
        do 4 eexists; (split; [reflexivity|]); cbn;
        (split; [reflexivity|]); (split; [reflexivity|]);
        (split; [reflexivity|]); eauto 10.
Qed.

(** *** Calls in flight for different sessions *)

Lemma footprint_other (sid sid' : string) st st' :
  footprint sid st st' -> sid' <> sid -> findSession sid' st' = findSession sid' st.
Proof.
  intros [->|(final & Hid & Hst)] Hne; [done|].
  unfold findSession. rewrite Hst. apply find_replace_miss.
  - intros c. by apply (other_session sid sid').
  - by apply (other_session sid sid'), same_session_eq.
Qed.

Lemma call_state_frame w sid text old u url sent k t sid' st st' :
  footprint sid' st st' -> sid <> sid' ->
  call_state w sid text old u url sent k t st ->
  call_state w sid text old u url sent k t st'.
Proof.
  intros Hfoot Hne [Hsome Ht]. unfold call_state, messagesOf in *.
  by rewrite (footprint_other sid' sid st st' Hfoot Hne).
Qed.

Lemma settle_own w sid text old u url sent k t st n :
  resumable w sid old u k ->
  msg_role u = User -> msg_text u = text ->
  call_state w sid text old u url sent k t st ->
  exists t' st' n',
    settle w t st n = (t', st', n') /\
    call_state w sid text old u url sent k t' st' /\
    footprint sid st st'.
Proof.
  intros Hk Hu Htext [[c Hc] [->|[-> Hdone]]].
  - cbn [settle].
    destruct (Hk (network w n ChatT url (chat_request sid text sent)) st (S n))
      as (rs & final & st' & n' & Hadv & Hst' & Hid & Hmsgs & Hans).
    exists (Settled (inr tt)), st', n'. split; [exact Hadv|].
    assert (Hfinal : findSession sid st' = Some final).
    { unfold findSession. rewrite Hst'. eapply find_replace_hit; [exact Hc|].
      by apply same_session_eq. }
    split; [split|].
    + by exists final.
    + right. split; [done|]. exists rs. split.
      * unfold messagesOf. by rewrite Hfinal.
      * repeat split; auto. by exists n, url, sent.
    + right. by exists final.
  - exists (Settled (inr tt)), st, n. split; [reflexivity|]. split.
    + split; [by exists c|by right].
    + by left.
Qed.

(** Whatever the order of the replies, each call keeps its own state and
    the sessions of others stay as they were. *)
Lemma interleave_two w sidA textA oldA uA urlA sentA kA sidB textB oldB uB urlB sentB kB
    (schedule : list nat) :
  sidA <> sidB ->
  resumable w sidA oldA uA kA -> msg_role uA = User -> msg_text uA = textA ->
  resumable w sidB oldB uB kB -> msg_role uB = User -> msg_text uB = textB ->
  forall tA tB st n,
    call_state w sidA textA oldA uA urlA sentA kA tA st ->
    call_state w sidB textB oldB uB urlB sentB kB tB st ->
    exists tA' tB' st' n',
      interleave w [tA; tB] schedule st n = ([tA'; tB'], st', n') /\
      call_state w sidA textA oldA uA urlA sentA kA tA' st' /\
      call_state w sidB textB oldB uB urlB sentB kB tB' st' /\
      forall sid', sid' <> sidA -> sid' <> sidB ->
                   findSession sid' st' = findSession sid' st.
Proof.
  intros Hne HkA HuA HtA HkB HuB HtB.
  induction schedule as [|i schedule IH]; intros tA tB st n HA HB.
  - exists tA, tB, st, n. by cbn.
  - destruct i as [|[|i]]; cbn [interleave lookup list_lookup].
    + destruct (settle_own _ _ _ _ _ _ _ _ _ _ n HkA HuA HtA HA)
        as (tA' & st1 & n1 & -> & HA' & Hfoot).
      cbn [insert list_insert].
      destruct (IH tA' tB st1 n1 HA')
        as (tA2 & tB2 & st2 & n2 & Hrun & HA2 & HB2 & Hrest).
      { eapply call_state_frame; [exact Hfoot|congruence|exact HB]. }
      exists tA2, tB2, st2, n2.
      split; [exact Hrun|]. split; [exact HA2|]. split; [exact HB2|].
      intros sid' H1 H2. rewrite (Hrest sid' H1 H2).
      by apply (footprint_other sidA).
    + destruct (settle_own _ _ _ _ _ _ _ _ _ _ n HkB HuB HtB HB)
        as (tB' & st1 & n1 & -> & HB' & Hfoot).
      cbn [insert list_insert].
      destruct (IH tA tB' st1 n1)
        as (tA2 & tB2 & st2 & n2 & Hrun & HA2 & HB2 & Hrest); [|exact HB'|].
      { eapply call_state_frame; [exact Hfoot|congruence|exact HA]. }
      exists tA2, tB2, st2, n2.
      split; [exact Hrun|]. split; [exact HA2|]. split; [exact HB2|].
      intros sid' H1 H2. rewrite (Hrest sid' H1 H2).
      by apply (footprint_other sidB).
    + by apply IH.
Qed.

Lemma turn_answered (w : World) (sid text : string) u rs :
  assistant_server w -> chat_turn w sid text u rs -> answered rs.
Proof.
  intros Hserver (_ & _ & m & url & sent & Hans). unfold answers in Hans.
  destruct (delivered _) as [envelope|] eqn:Hd.
  - subst rs. exact (Hserver _ _ _ _ Hd).
  - destruct Hans as (e & -> & Hrole & _). split; [discriminate|by constructor].
Qed.

Lemma two_calls_run (w : World) (sidA textA sidB textB : string) (schedule : list nat) s n :
  sidA <> sidB ->
  exists tA tB st' n',
    two_calls w sidA textA sidB textB schedule s n = ([tA; tB], st', n') /\
    (is_settled tA = true ->
     exists uA rsA, messagesOf sidA st' = messagesOf sidA s ++ uA :: rsA /\
                    chat_turn w sidA textA uA rsA) /\
    (is_settled tB = true ->
     exists uB rsB, messagesOf sidB st' = messagesOf sidB s ++ uB :: rsB /\
                    chat_turn w sidB textB uB rsB) /\
    (forall sid', sid' <> sidA -> sid' <> sidB ->
                  findSession sid' st' = findSession sid' s).
Proof.
  intros Hne. unfold two_calls.
  destruct (sendChatMessage_suspends w sidA textA s n)
    as (urlA & sentA & kA & sA & nA & uA & HadvA & HuA & HtA & (insA & HinsA & HmA) &
        HothersA & HkA).
  rewrite HadvA.
  destruct (sendChatMessage_suspends w sidB textB sA nA)
    as (urlB & sentB & kB & sB & nB & uB & HadvB & HuB & HtB & (insB & HinsB & HmB) &
        HothersB & HkB).
  rewrite HadvB.
  assert (HoldB : messagesOf sidB sA = messagesOf sidB s)
    by (unfold messagesOf; rewrite HothersA; [done|congruence]).
  rewrite HoldB in HkB.
  assert (HA : call_state w sidA textA (messagesOf sidA s) uA urlA sentA kA
                 (Awaiting ChatT urlA (chat_request sidA textA sentA) kA) sB).
  { split; [|by left]. exists insA. by rewrite HothersB. }
  assert (HB : call_state w sidB textB (messagesOf sidB s) uB urlB sentB kB
                 (Awaiting ChatT urlB (chat_request sidB textB sentB) kB) sB).
  { split; [|by left]. by exists insB. }
  destruct (interleave_two w sidA textA _ uA urlA sentA kA sidB textB _ uB urlB sentB kB
              schedule Hne HkA HuA HtA HkB HuB HtB _ _ sB nB HA HB)
    as (tA' & tB' & st' & n' & Hrun & [_ HA'] & [_ HB'] & Hrest).
  exists tA', tB', st', n'. split; [exact Hrun|]. split; [|split].
  - intros Hdone. destruct HA' as [->|[_ (rs & Hm & Hturn)]]; [discriminate|eauto].
  - intros Hdone. destruct HB' as [->|[_ (rs & Hm & Hturn)]]; [discriminate|eauto].
  - intros sid' H1 H2. rewrite (Hrest sid' H1 H2), (HothersB sid' H2). by apply HothersA.
Qed.

(** C7, amended: calls of [sendChatMessage] for one session, each awaited,
    always resolve and leave the session with, per call and in order, the
    user's message followed by the messages the chat adapter resolved with:
    the server's messages, however many and whatever their role, or the
    adapter's single assistant apology when the request failed; with a
    server that answers with at least one assistant message, every user
    message is followed by at least one assistant message.  Through all
    commits the session only grows at its end, and no other session is
    touched.  Two calls in flight for different sessions end, whatever the
    order of their replies, each with its own turn at the end of its own
    session, and leave the other sessions as they were. *)
Theorem conversation_turns (w : World) (sid : string) (texts : list string)
    (s : StoreState) (n : nat) :
  let out := run w (send_all sid texts) s n in
  settled out = inr tt /\
  (exists turns,
     Forall2 (fun text turn => chat_turn w sid text turn.1 turn.2) texts turns /\
     messagesOf sid (store out) = messagesOf sid s ++ transcript turns /\
     (assistant_server w -> Forall (fun turn => answered turn.2) turns)) /\
  (forall sid', sid' <> sid -> findSession sid' (store out) = findSession sid' s) /\
  growing sid (messagesOf sid s) (commits out) (messagesOf sid (store out)) /\
  (forall text sidB textB schedule,
     sid <> sidB ->
     exists tA tB st' n',
       two_calls w sid text sidB textB schedule s n = ([tA; tB], st', n') /\
       (is_settled tA = true ->
        exists uA rsA, messagesOf sid st' = messagesOf sid s ++ uA :: rsA /\
                       chat_turn w sid text uA rsA) /\
       (is_settled tB = true ->
        exists uB rsB, messagesOf sidB st' = messagesOf sidB s ++ uB :: rsB /\
                       chat_turn w sidB textB uB rsB) /\
       (forall sid', sid' <> sid -> sid' <> sidB ->
                     findSession sid' st' = findSession sid' s)).
Proof.
  destruct (send_all_run w sid texts s n) as (Hok & (turns & Hturns & Hmsgs) & Hothers & Hgrow).
  split; [exact Hok|]. split; [|split; [exact Hothers|split; [exact Hgrow|]]].
  - exists turns. split; [exact Hturns|]. split; [exact Hmsgs|].
    intros Hserver. clear Hmsgs Hok Hothers Hgrow.
    induction Hturns as [|text turn texts' turns' Hturn _ IH]; constructor.
    + exact (turn_answered w sid text turn.1 turn.2 Hserver Hturn).
    + exact IH.
  - intros text sidB textB schedule Hne. by apply two_calls_run.
Qed.

Lemma online_assistant_server : assistant_server online.
Proof.
  intros m url init envelope H. cbn in H. injection H as <-.
  split; [discriminate|]. by repeat constructor.
Qed.

(** Two messages to a session of a server that answers: both are answered;
    and with a second session in flight whose reply arrives first, both
    calls settle. *)
Lemma conversation_turns_witness :
  (exists turns,
     messagesOf "session-1"
       (store (run online (send_all "session-1" ["Where is IC-2847?"; "Why?"])
                 initialState 0))
     = transcript turns /\
     Forall (fun turn => answered turn.2) turns) /\
  (exists st' n',
     two_calls online "session-1" "Where is IC-2847?" "session-2" "Show KPIs" [1; 0]
       initialState 0
     = ([Settled (inr tt); Settled (inr tt)], st', n')).
Proof.
  destruct (conversation_turns online "session-1" ["Where is IC-2847?"; "Why?"]
              initialState 0)
    as (_ & (turns & _ & Hm & Hans) & _ & _ & Htwo).
  split.
  - exists turns. split; [exact Hm|]. apply Hans, online_assistant_server.
  - destruct (Htwo "Where is IC-2847?" "session-2" "Show KPIs" [1; 0])
      as (tA & tB & st' & n' & Hrun & _); [discriminate|].
    exists st', n'. rewrite Hrun. vm_compute in Hrun.
    injection Hrun as <- <- _ _. reflexivity.
Defined.

(** * Further properties of the modelled code *)

(** ** Decisions: rejection, missing targets, the pending list *)

(** X1: after [rejectRecommendation recId reason] resolved, every
    recommendation with that id is rejected with its action text unchanged,
    every other recommendation is as it was, and exactly one entry was put
    at the head of the audit log: it refers to [recId], gives [reason] as its
    reason and "Recommendation Rejected" as its action; [loading] is false
    and no error is set. *)
Theorem reject_commits_reason (w : World) (recId reason : string) (s : StoreState)
    (n : nat) :
  let out := run w (useStore.rejectRecommendation recId reason) s n in
  settled out = inr tt ->
  (forall i r0, recommendations s !! i = Some r0 -> rec_id r0 = recId ->
     exists r1, recommendations (store out) !! i = Some r1 /\
                rec_status r1 = Some Rejected /\ rec_action r1 = rec_action r0) /\
  (forall i r0, recommendations s !! i = Some r0 -> rec_id r0 <> recId ->
     recommendations (store out) !! i = Some r0) /\
  (exists entry,
     auditLogs (store out) = entry :: auditLogs s /\
     log_recId entry = Some recId /\
     log_reason entry = Some reason /\
     log_action entry = "Recommendation Rejected" /\
     log_actor entry = "System User" /\
     log_outcome entry = Some Success) /\
  loading (store out) = false /\ error (store out) = None.
Proof.
  unfold useStore.rejectRecommendation. cbn [run bind get].
  destruct (find _ (recommendations s)) as [r|] eqn:Hr; [|discriminate].
  cbn. on_reply; intros He; try discriminate.
  split; [|split; [|split]].
  - intros i r0 Hi <-. rewrite lookup_map, Hi. cbn.
    rewrite String.eqb_refl. eauto.
  - intros i r0 Hi Hne. rewrite lookup_map, Hi. cbn.
    by apply String.eqb_neq in Hne as ->.
  - eexists. split; [reflexivity|]. cbn. auto 10.
  - auto.
Qed.

Lemma reject_commits_reason_witness :
  rec_status <$> recommendations
      (store (run online (useStore.rejectRecommendation "rec-001" "Safety concern")
                seeded 0)) !! 0
  = Some (Some Rejected).
Proof.
  destruct (reject_commits_reason online "rec-001" "Safety concern" seeded 0 eq_refl)
    as (Hrecs & _).
  destruct (Hrecs 0 _ eq_refl eq_refl) as (r1 & H1 & H2 & _).
  rewrite H1. cbn. by rewrite H2.
Defined.

(** X2: a decision that names a recommendation (or, for an override, an
    alternative) the store does not have rejects at once: the store is left
    exactly as it was ([loading] and [error] included), no state is
    committed, no request is sent and nothing is logged. *)
Theorem decision_on_missing_target (w : World) (d : Decision) (s : StoreState) (n : nat) :
  ~ resolvable d s ->
  let out := run w (decide_ d) s n in
  (exists text, settled out = inl (Error text)) /\
  store out = s /\ commits out = [] /\ requests out = [] /\
  logged out = [] /\ clock out = n.
Proof.
  intros Hmissing.
  destruct d as [recId|recId altId|recId reason]; cbn [decide_ resolvable] in *.
  - unfold findRecommendation in Hmissing.
    unfold useStore.acceptRecommendation. cbn [run bind get].
    destruct (find _ (recommendations s)) as [r|]; [by destruct Hmissing|].
    cbn. eauto 10.
  - unfold findRecommendation, findAlternative in Hmissing.
    unfold useStore.overrideRecommendation. cbn [run bind get].
    destruct (find _ (recommendations s)) as [r|]; cbn in *; [|eauto 10].
    destruct (find _ (rec_alternatives r)) as [a|]; [by destruct Hmissing|].
    cbn. eauto 10.
  - unfold findRecommendation in Hmissing.
    unfold useStore.rejectRecommendation. cbn [run bind get].
    destruct (find _ (recommendations s)) as [r|]; [by destruct Hmissing|].
    cbn. eauto 10.
Qed.

Lemma decision_on_missing_target_witness :
  store (run online (decide_ (Override "rec-001" "alt-009")) seeded 0) = seeded.
Proof.
  assert (Hmissing : ~ resolvable (Override "rec-001" "alt-009") seeded)
    by (intros [a Ha]; discriminate Ha).
  exact (proj1 (proj2 (decision_on_missing_target online _ seeded 0 Hmissing))).
Defined.

(** Replacing the decided recommendations by ones that are no longer
    pending removes exactly them from the pending list. *)
Lemma filter_pending_decided (recId : string) (upd : Recommendation -> Recommendation)
    (l : list Recommendation) :
  (forall r, rec_status (upd r) <> Some Pending) ->
  List.filter (fun r => match rec_status r with Some Pending => true | _ => false end)
    (map (fun r => if String.eqb (rec_id r) recId then upd r else r) l)
  = List.filter (fun r => negb (String.eqb (rec_id r) recId))
      (List.filter (fun r => match rec_status r with Some Pending => true | _ => false end) l).
Proof.
  intros Hupd. induction l as [|r l IH]; [reflexivity|]. cbn [map List.filter].
  destruct (String.eqb (rec_id r) recId) eqn:E.
  - specialize (Hupd r).
    destruct (rec_status (upd r)) as [[]|]; try contradiction;
      rewrite IH; destruct (rec_status r) as [[]|]; cbn [List.filter]; rewrite ?E; reflexivity.
  - rewrite IH. destruct (rec_status r) as [[]|]; cbn [List.filter]; rewrite ?E; reflexivity.
Qed.

Lemma decided_is_completed (recId : string) (upd : Recommendation -> Recommendation)
    (st : RecStatus) (l : list Recommendation) (r : Recommendation) :
  st <> Pending ->
  (forall r, rec_status (upd r) = Some st) ->
  (forall r, rec_id (upd r) = rec_id r) ->
  find (fun r => String.eqb (rec_id r) recId) l = Some r ->
  exists r',
    r' ∈ recommendationsPage.completedRecommendations
           (map (fun r => if String.eqb (rec_id r) recId then upd r else r) l) /\
    rec_id r' = recId /\ rec_status r' = Some st.
Proof.
  intros Hst Hupd Hid Hr. apply find_some in Hr as [Hin Heq].
  exists (upd r). split; [|split; [rewrite Hid; by apply String.eqb_eq|apply Hupd]].
  apply list_elem_of_In, filter_In. split.
  - apply in_map_iff. exists r. by rewrite Heq.
  - rewrite Hupd. by destruct st.
Qed.

(** X3: after a decision resolved, the pending list (the selector's and the
    page's) is the old one without the recommendations of the decided id, in
    the old order; no recommendation left the store, and the completed list
    has one with the decided id and the decision's status. *)
Theorem decided_leaves_pending (w : World) (d : Decision) (s : StoreState) (n : nat) :
  let out := run w (decide_ d) s n in
  settled out = inr tt ->
  useStore.usePendingRecommendations (store out)
  = List.filter (fun r => negb (String.eqb (rec_id r) (target d)))
      (useStore.usePendingRecommendations s) /\
  recommendationsPage.pendingRecommendations (recommendations (store out))
  = useStore.usePendingRecommendations (store out) /\
  length (recommendations (store out)) = length (recommendations s) /\
  exists r, r ∈ recommendationsPage.completedRecommendations (recommendations (store out)) /\
            rec_id r = target d /\ rec_status r = Some (verdict d).
Proof.
  unfold useStore.usePendingRecommendations, recommendationsPage.pendingRecommendations.
  destruct d as [recId|recId altId|recId reason]; cbn [decide_ target verdict].
  - unfold useStore.acceptRecommendation. cbn [run bind get].
    destruct (find _ (recommendations s)) as [r|] eqn:Hr; [|discriminate].
    cbn. on_reply; intros He; try discriminate.
    split; [by apply (filter_pending_decided recId (with_status Accepted))|].
    split; [reflexivity|]. split; [by rewrite length_map|].
    by apply (decided_is_completed recId (with_status Accepted) Accepted _ r).
  - unfold useStore.overrideRecommendation. cbn [run bind get].
    destruct (find _ (recommendations s)) as [r|] eqn:Hr; [|discriminate].
    cbn [mbind option_bind].
    destruct (find _ (rec_alternatives r)) as [a|] eqn:Ha; [|discriminate].
    cbn. on_reply; intros He; try discriminate.
    split; [by apply (filter_pending_decided recId
                        (with_status_action Accepted (alt_action a)))|].
    split; [reflexivity|]. split; [by rewrite length_map|].
    by apply (decided_is_completed recId (with_status_action Accepted (alt_action a))
                Accepted _ r).
  - unfold useStore.rejectRecommendation. cbn [run bind get].
    destruct (find _ (recommendations s)) as [r|] eqn:Hr; [|discriminate].
    cbn. on_reply; intros He; try discriminate.
    split; [by apply (filter_pending_decided recId (with_status Rejected))|].
    split; [reflexivity|]. split; [by rewrite length_map|].
    by apply (decided_is_completed recId (with_status Rejected) Rejected _ r).
Qed.

Lemma decided_leaves_pending_witness :
  useStore.usePendingRecommendations
    (store (run online (decide_ (Reject "rec-001" "Safety concern")) seeded 0)) = [].
Proof.
  rewrite (proj1 (decided_leaves_pending online (Reject "rec-001" "Safety concern")
                    seeded 0 eq_refl)).
  reflexivity.
Defined.

(** ** The simulation action *)

(** X4: [runSimulation] sends two requests, the scenario to the simulator
    and then one audit entry, whatever the simulator answered: the
    simulator adapter never rejects, a failed simulation is a result with
    safety "unknown".  The action resolves exactly when the audit write is
    delivered, and then with the adapter's result and one new entry at the
    head of the audit log, for the scenario's train.  When the audit write
    fails the action rejects, the log is as before and the result of the
    simulation is lost behind the error "Failed to run simulation".
    [loading] ends false and the recommendations are untouched. *)
Theorem simulation_is_audited (w : World) (payload : WhatIfPayload) (s : StoreState)
    (n : nat) :
  let out := run w (useStore.runSimulation payload) s n in
  let sim := run w (simulatorService.runWhatIfScenario payload) s n in
  exists result simulate audit,
    settled sim = inr result /\
    (requests sim = [simulate] /\ req_shape simulate = SimulationT) /\
    (is_Some (delivered (network w (2 + n) SimulationT (req_url simulate) (req_init simulate)))
     \/ pk_safety (projectedKPIs result) = "unknown") /\
    requests out = [simulate; audit] /\
    req_shape audit = AuditIdT /\
    method (req_init audit) = Some "POST" /\
    (is_Some (delivered (network w (4 + clock sim) AuditIdT (req_url audit) (req_init audit)))
     <-> exists r, settled out = inr r) /\
    match settled out with
    | inr r =>
        r = result /\
        error (store out) = None /\
        exists entry,
          auditLogs (store out) = entry :: auditLogs s /\
          log_action entry = "What-If Simulation Executed" /\
          log_trainId entry = Some (wi_trainId payload) /\
          log_recId entry = None
    | inl e =>
        auditLogs (store out) = auditLogs s /\
        error (store out) = Some "Failed to run simulation"
    end /\
    loading (store out) = false /\
    recommendations (store out) = recommendations s.
Proof.
  cbn.
  match goal with |- context [network ?w ?n ?T ?u ?i] =>
    destruct (network w n T u i) as [?|status [?|?]] eqn:Hsim; cbn;
    try (destruct (ok status) eqn:Hok; cbn)
  end.
  all: match goal with |- context [network ?w ?n ?T ?u ?i] =>
    destruct (network w n T u i) as [?|status' [?|?]] eqn:Haudit; cbn;
    try (destruct (ok status') eqn:Hok'; cbn)
  end.
  all: do 3 eexists.
  all: split; [reflexivity|].
  all: split; [split; reflexivity|].
  all: cbn; rewrite Hsim; cbn; rewrite ?Hok.
  all: split; [first [by right | by left]|].
  all: split; [reflexivity|].
  all: cbn; rewrite Haudit; cbn; rewrite ?Hok'.
  all: unfold defaultOptions; cbn.
  all: do 2 (split; [reflexivity|]).
  all: split; [split; intros [? H]; first [discriminate H | by eexists]|].
  all: eauto 12.
Qed.

(** ** Chat sessions *)

(** X5: [createChatSession] resolves with the id of a session it appended
    at the end of the store's sessions, without messages, and changes
    nothing else, sending no request.  Looking the id up finds that session,
    unless an older session already had the id, which then hides the new
    one; and the session [useActiveChatSession] selects, the first, is the
    one it selected before whenever there was one. *)
Theorem createChatSession_appends (w : World) (s : StoreState) (n : nat) :
  let out := run w useStore.createChatSession s n in
  exists sid session,
    settled out = inr sid /\
    store out = with_chatSessions (chatSessions s ++ [session]) s /\
    chat_sessionId session = sid /\
    chat_messages session = [] /\
    settled (run w (useStore.getChatSession sid) (store out) (clock out))
    = inr (Some (default session (findSession sid s))) /\
    useStore.useActiveChatSession (store out)
    = Some (default session (useStore.useActiveChatSession s)) /\
    commits out = [store out] /\ requests out = [] /\ logged out = [].
Proof.
  cbn. do 2 eexists. split; [reflexivity|]. split; [reflexivity|].
  split; [reflexivity|]. split; [reflexivity|]. cbn. split; [|split; [|done]].
  - unfold findSession.
    destruct (find _ (chatSessions s)) as [c|] eqn:Hfind; cbn [default].
    + by rewrite (find_app_hit _ _ _ _ Hfind).
    + rewrite (find_app_miss _ _ _ Hfind). cbn. by rewrite String.eqb_refl.
  - unfold useStore.useActiveChatSession. cbn. by destruct (chatSessions s).
Qed.

(** The store changes by a call of [sendChatMessage] only in its sessions,
    whose number grows by one exactly when the session was unknown. *)
Lemma sendChatMessage_frame (w : World) (sid text : string) s n :
  let out := run w (useStore.sendChatMessage sid text) s n in
  Forall (fun st => exists cs, st = with_chatSessions cs s) (store out :: commits out) /\
  length (chatSessions (store out))
  = match findSession sid s with
    | Some _ => length (chatSessions s)
    | None => S (length (chatSessions s))
    end.
Proof.
  unfold useStore.sendChatMessage, useStore.sendChatMessage_try,
    chatbotService.sendChatMessage, findSession.
  cbn [run bind get].
  destruct (find _ (chatSessions s)) as [c|] eqn:Hfind; cbn.
  - rewrite (find_existsb_true _ _ _ Hfind).
    on_reply; (split; [repeat constructor; by eexists|]);
      cbn; by rewrite !length_map.
  - rewrite (find_existsb_false _ _ Hfind).
    on_reply; (split; [repeat constructor; by eexists|]);
      cbn; rewrite !length_map, length_app; cbn; lia.
Qed.

(** X6: a message sent to a session just created, under an id no older
    session has, lands in that session: it holds the user's message followed
    by the adapter's answer, and no second session is made for the id. *)
Theorem created_session_takes_messages (w : World) (text : string) (s : StoreState)
    (n : nat) (sid : string) :
  let created := run w useStore.createChatSession s n in
  settled created = inr sid ->
  findSession sid s = None ->
  let out := run w (useStore.sendChatMessage sid text) (store created) (clock created) in
  settled out = inr tt /\
  length (chatSessions (store out)) = S (length (chatSessions s)) /\
  exists u rs,
    messagesOf sid (store out) = u :: rs /\ chat_turn w sid text u rs.
Proof.
  intros created Hsid Hfresh out.
  destruct (createChatSession_appends w s n)
    as (sid' & session & Hsid' & Hstore & Hid & Hmsgs & _).
  fold created in Hsid', Hstore. rewrite Hsid in Hsid'. injection Hsid' as <-.
  assert (Hfound : findSession sid (store created) = Some session).
  { rewrite Hstore. unfold findSession in *. cbn.
    rewrite (find_app_miss _ _ _ Hfresh). cbn. by rewrite Hid, String.eqb_refl. }
  destruct (sendChatMessage_run w sid text (store created) (clock created))
    as (u & rs & _ & _ & _ & Hok & _ & _ & _ & Hturn & _ & _ & (final & Hf & Hm) & _).
  destruct (sendChatMessage_frame w sid text (store created) (clock created))
    as [_ Hlen].
  fold out in Hok, Hf, Hlen. split; [exact Hok|]. split.
  - rewrite Hlen, Hfound, Hstore. cbn. rewrite length_app. cbn. lia.
  - exists u, rs. split; [|exact Hturn].
    unfold messagesOf at 1. rewrite Hf. cbn. rewrite Hm.
    unfold messagesOf. rewrite Hfound. cbn. by rewrite Hmsgs.
Qed.

Lemma created_session_takes_messages_witness :
  length (chatSessions
            (store (run online
                      (useStore.sendChatMessage "session-1700000000000-k3j5h2lq9" "Hello")
                      (store (run online useStore.createChatSession initialState 0))
                      (clock (run online useStore.createChatSession initialState 0)))))
  = 1.
Proof.
  exact (proj1 (proj2
           (created_session_takes_messages online "Hello" initialState 0
              "session-1700000000000-k3j5h2lq9" eq_refl eq_refl))).
Defined.

(** ** Persistence *)

(** X7: the chat actions, [addAuditLog], [fetchAuditLogs], [runSimulation],
    [setLoading] and [setError] never change what [partialize] keeps for
    storage: the persisted part of every state they commit is the persisted
    part of the state they started from. *)
Theorem volatile_actions_persist_nothing (w : World) (s : StoreState) (n : nat) :
  let unchanged {A} (out : Run A) :=
    Forall (fun st => useStore.partialize st = useStore.partialize s)
           (store out :: commits out) in
  (forall sid text, unchanged (run w (useStore.sendChatMessage sid text) s n)) /\
  unchanged (run w useStore.createChatSession s n) /\
  (forall log, unchanged (run w (useStore.addAuditLog log) s n)) /\
  (forall filters, unchanged (run w (useStore.fetchAuditLogs filters) s n)) /\
  (forall payload, unchanged (run w (useStore.runSimulation payload) s n)) /\
  (forall v, unchanged (run w (useStore.setLoading v) s n)) /\
  (forall v, unchanged (run w (useStore.setError v) s n)).
Proof.
  intros unchanged. subst unchanged. cbn beta.
  split; [|split; [|split; [|split; [|split; [|split]]]]].
  - intros sid text.
    eapply Forall_impl; [apply (sendChatMessage_frame w sid text s n)|].
    by intros st [cs ->].
  - cbn. repeat constructor.
  - intros log. cbn. repeat constructor.
  - intros filters. cbn. on_reply; repeat constructor.
  - intros payload. cbn. on_reply; on_reply; repeat constructor.
  - intros v. cbn. repeat constructor.
  - intros v. cbn. repeat constructor.
Qed.

(** ** Fetch actions: what they leave alone *)

(** X8: a fetch action changes no collection but its own, no time stamp in
    [lastUpdated] but the one under its own key, and neither the chat
    sessions, the selection nor the filters. *)
Theorem fetch_action_frame (w : World) (a : FetchAction) (s : StoreState) (n : nat) :
  let out := run w (perform a) s n in
  (forall b, collection b <> collection a -> shown b (store out) = shown b s) /\
  (forall key, key <> collection a -> lastUpdated (store out) !! key = lastUpdated s !! key) /\
  chatSessions (store out) = chatSessions s /\
  selectedTrains (store out) = selectedTrains s /\
  activeFilters (store out) = activeFilters s.
Proof.
  destruct a as [| |trainIds| |filters]; cbn; on_reply;
    (split; [intros [| |?| |?] Hb; cbn in *; congruence|]);
    (split; [intros key Hkey; cbn; try reflexivity; by apply lookup_insert_ne|]);
    auto.
Qed.

(** ** Fetch actions in flight together *)

(** X9: the recommendations page starts [fetchRecommendations] and
    [fetchTrains] together.  Both requests are sent before any reply is
    handled.  The first reply handled, whichever it is, sets [loading] to
    false while the other request is still in flight.  When both replies
    are handled each collection shows its own reply (or stays as it was when
    that reply is a failure), and both actions have resolved; the error
    shown is the failure text of the reply handled last if that failed,
    else the text of the one handled first if that failed: a success does
    not clear the error the other action has set. *)
Theorem mount_fetches_overlap (w : World) (s : StoreState) (n : nat) :
  exists urlR urlT init kR kT started n0,
    start_all w recommendationsPage.mountEffect s n
    = ([Awaiting RecommendationsT urlR init kR; Awaiting TrainsT urlT init kT], started, n0) /\
    loading started = true /\
    (exists mid m, in_flight w recommendationsPage.mountEffect [0] s n
                   = ([Settled (inr tt); Awaiting TrainsT urlT init kT], mid, m) /\
                   loading mid = false) /\
    (exists mid m, in_flight w recommendationsPage.mountEffect [1] s n
                   = ([Awaiting RecommendationsT urlR init kR; Settled (inr tt)], mid, m) /\
                   loading mid = false) /\
    (exists mR mT final m,
       let replyR := network w mR RecommendationsT urlR init in
       let replyT := network w mT TrainsT urlT init in
       in_flight w recommendationsPage.mountEffect [0; 1] s n
       = ([Settled (inr tt); Settled (inr tt)], final, m) /\
       recommendations final = fetched replyR (recommendations s) /\
       trains final = fetched replyT (trains s) /\
       loading final = false /\
       error final = match delivered replyT, delivered replyR with
                     | None, _ => Some "Failed to fetch trains"
                     | Some _, None => Some "Failed to fetch recommendations"
                     | Some _, Some _ => None
                     end) /\
    (exists mR mT final m,
       let replyR := network w mR RecommendationsT urlR init in
       let replyT := network w mT TrainsT urlT init in
       in_flight w recommendationsPage.mountEffect [1; 0] s n
       = ([Settled (inr tt); Settled (inr tt)], final, m) /\
       recommendations final = fetched replyR (recommendations s) /\
       trains final = fetched replyT (trains s) /\
       loading final = false /\
       error final = match delivered replyR, delivered replyT with
                     | None, _ => Some "Failed to fetch recommendations"
                     | Some _, None => Some "Failed to fetch trains"
                     | Some _, Some _ => None
                     end).
Proof.
  do 7 eexists. split; [reflexivity|]. split; [reflexivity|].
  unfold in_flight, fetched.
  split; [cbn; on_reply; do 2 eexists; split; reflexivity|].
  split; [cbn; on_reply; do 2 eexists; split; reflexivity|].
  split.
  - cbn. on_reply_eq HR; on_reply_eq HT.
    all: match goal with
         | ER : network _ ?a RecommendationsT _ _ = _,
           ET : network _ ?b TrainsT _ _ = _ |- _ => exists a, b
         end.
    all: do 2 eexists; split; [reflexivity|].
    all: cbn; rewrite HR, HT; cbn.
    all: repeat match goal with H : ok _ = _ |- _ => rewrite H; clear H end.
    all: cbn; auto.
  - cbn. on_reply_eq HT; on_reply_eq HR.
    all: match goal with
         | ER : network _ ?a RecommendationsT _ _ = _,
           ET : network _ ?b TrainsT _ _ = _ |- _ => exists a, b
         end.
    all: do 2 eexists; split; [reflexivity|].
    all: cbn; rewrite HR, HT; cbn.
    all: repeat match goal with H : ok _ = _ |- _ => rewrite H; clear H end.
    all: cbn; auto.
Qed.

(** X10: the two fetches the page starts together do not lose each
    other's time stamp: each builds [lastUpdated] from the store as it is
    when its own reply is handled.  When both have succeeded, in either
    order of the replies, [lastUpdated] has a stamp for the recommendations
    and one for the trains, and every other stamp is as it was. *)
Theorem overlapping_fetches_keep_both_stamps (w : World) (schedule : list nat)
    (s : StoreState) (n : nat) :
  schedule = [0; 1] \/ schedule = [1; 0] ->
  let final := (in_flight w recommendationsPage.mountEffect schedule s n).1.2 in
  error final = None ->
  is_Some (lastUpdated final !! "recommendations") /\
  is_Some (lastUpdated final !! "trains") /\
  forall key, key <> "recommendations" -> key <> "trains" ->
              lastUpdated final !! key = lastUpdated s !! key.
Proof.
  intros [-> | ->]; unfold in_flight; cbn; on_reply; on_reply; intros Herror;
    try discriminate Herror.
  all: assert (Hstamped : forall (m : gmap string string) key key' v v',
                 is_Some (<[key := v]> (<[key' := v']> m) !! key) /\
                 is_Some (<[key := v]> (<[key' := v']> m) !! key'))
         by (intros m key key' v v'; rewrite !lookup_insert_is_Some; split;
             [by left|destruct (decide (key = key')); [by left|right; split; [done|by left]]]).
  all: split; [apply Hstamped|]; split; [apply Hstamped|].
  all: intros key HR HT; by rewrite !lookup_insert_ne.
Qed.

Lemma overlapping_fetches_keep_both_stamps_witness :
  is_Some (lastUpdated
             (in_flight online recommendationsPage.mountEffect [1; 0] initialState 0).1.2
           !! "recommendations").
Proof.
  exact (proj1 (overlapping_fetches_keep_both_stamps online [1; 0] initialState 0
                  (or_intror eq_refl) eq_refl)).
Defined.

(** ** Two calls in flight for one session *)

(** The rest of a suspended call, resumed beside a store that has the
    session: the session then holds what the call saw and its own turn. *)
Lemma resumed_session (w : World) (sid : string) (old : list ChatbotMessage)
    (u : ChatbotMessage) k reply sX nX :
  resumable w sid old u k ->
  is_Some (findSession sid sX) ->
  exists rs sX' nX',
    advance w (k reply) sX nX = (Settled (inr tt), sX', nX') /\
    is_Some (findSession sid sX') /\
    messagesOf sid sX' = old ++ u :: rs /\
    answers reply rs.
Proof.
  intros Hk [c Hc].
  destruct (Hk reply sX nX) as (rs & final & sX' & nX' & Hadv & Hst & Hid & Hmsgs & Hans).
  assert (Hfinal : findSession sid sX' = Some final).
  { unfold findSession. rewrite Hst.
    eapply find_replace_hit; [exact Hc|by apply same_session_eq]. }
  exists rs, sX', nX'. split; [exact Hadv|]. split; [by exists final|].
  split; [|exact Hans]. unfold messagesOf. by rewrite Hfinal.
Qed.

(** X11: two calls of [sendChatMessage] for the same session, the second
    made before the first reply arrived, both resolve, but each writes the
    session as it saw it when it was made.  When the replies arrive in the
    order of the calls, the session ends with both user messages and the
    answer to the second: the answer to the first is overwritten.  When the
    second reply arrives first, the session ends with the first turn only:
    the second user message and its answer are overwritten. *)
Theorem overlapping_calls_same_session (w : World) (sid textA textB : string)
    (s : StoreState) (n : nat) :
  exists uA uB,
    msg_role uA = User /\ msg_text uA = textA /\
    msg_role uB = User /\ msg_text uB = textB /\
    (exists rsB st' n',
       two_calls w sid textA sid textB [0; 1] s n
       = ([Settled (inr tt); Settled (inr tt)], st', n') /\
       messagesOf sid st' = messagesOf sid s ++ uA :: uB :: rsB /\
       chat_turn w sid textB uB rsB) /\
    (exists rsA st' n',
       two_calls w sid textA sid textB [1; 0] s n
       = ([Settled (inr tt); Settled (inr tt)], st', n') /\
       messagesOf sid st' = messagesOf sid s ++ uA :: rsA /\
       chat_turn w sid textA uA rsA).
Proof.
  unfold two_calls.
  destruct (sendChatMessage_suspends w sid textA s n)
    as (urlA & sentA & kA & sA & nA & uA & HadvA & HuA & HtA & (insA & HinsA & HmA) &
        _ & HkA).
  rewrite HadvA.
  destruct (sendChatMessage_suspends w sid textB sA nA)
    as (urlB & sentB & kB & sB & nB & uB & HadvB & HuB & HtB & (insB & HinsB & HmB) &
        _ & HkB).
  rewrite HadvB.
  assert (Hseen : messagesOf sid sA = messagesOf sid s ++ [uA])
    by (unfold messagesOf at 1; by rewrite HinsA).
  rewrite Hseen in HkB.
  assert (HsB : is_Some (findSession sid sB)) by by exists insB.
  exists uA, uB. do 4 (split; [assumption|]).
  cbn [interleave lookup list_lookup settle insert list_insert].
  split.
  - destruct (resumed_session w sid _ uA kA
                (network w nB ChatT urlA (chat_request sid textA sentA)) sB (S nB) HkA HsB)
      as (rsA & s2 & n2 & -> & Hs2 & Hm2 & HansA).
    cbn [insert list_insert lookup list_lookup].
    destruct (resumed_session w sid _ uB kB
                (network w n2 ChatT urlB (chat_request sid textB sentB)) s2 (S n2) HkB Hs2)
      as (rsB & s3 & n3 & -> & _ & Hm3 & HansB).
    exists rsB, s3, n3. split; [reflexivity|]. split.
    + by rewrite Hm3, <- app_assoc.
    + repeat split; auto. by exists n2, urlB, sentB.
  - destruct (resumed_session w sid _ uB kB
                (network w nB ChatT urlB (chat_request sid textB sentB)) sB (S nB) HkB HsB)
      as (rsB & s2 & n2 & -> & Hs2 & Hm2 & HansB).
    cbn [insert list_insert lookup list_lookup].
    destruct (resumed_session w sid _ uA kA
                (network w n2 ChatT urlA (chat_request sid textA sentA)) s2 (S n2) HkA Hs2)
      as (rsA & s3 & n3 & -> & _ & Hm3 & HansA).
    exists rsA, s3, n3. split; [reflexivity|]. split; [exact Hm3|].
    repeat split; auto. by exists n2, urlA, sentA.
Qed.

(** ** Transport: one attempt, and the helpers' requests *)

(** X12: [apiFetch] sends exactly one request, with no retry, and does not
    touch the store.  It resolves, with the parsed body, exactly when the
    reply is a response in the success range whose body parses; in every
    other case it logs one line naming the URL and rejects: with the
    transport's error, with the parse error, or, for a status outside the
    success range, with "HTTP error! status: N" whatever the body was. *)
Theorem apiFetch_single_attempt (w : World) (T : Shape) (url : string)
    (options : RequestInit) (s : StoreState) (n : nat) :
  let out := run w (apiFetch T url options) s n in
  let reply := network w n T url (defaultOptions options) in
  requests out
  = [{| req_shape := T; req_url := url; req_init := defaultOptions options |}] /\
  store out = s /\ commits out = [] /\ clock out = S n /\
  match delivered reply with
  | Some body => settled out = inr body /\ logged out = []
  | None =>
      logged out = ["API request failed for " +:+ url +:+ ":"] /\
      exists e, settled out = inl e /\
                match reply with
                | NetworkError e' => e = e'
                | Response status json =>
                    if ok status then json = inl e
                    else e = Error ("HTTP error! status: " +:+ show status)
                end
  end.
Proof.
  cbn. destruct (network w n T url (defaultOptions options)) as [e|status [e|body]]; cbn;
    try (destruct (ok status); cbn); eauto 10.
Qed.

(** The verbs of the transport helpers. *)
Lemma helper_request (w : World) (T : Shape) (path : string) (verb : string)
    (data : option Body) (s : StoreState) (n : nat) :
  let base := match runtime w n _ NEXT_PUBLIC_API_BASE with
              | Some b => if String.eqb b "" then "/api" else b
              | None => "/api"
              end in
  let out := run w (let* url := apiUrl path in
                    apiFetch T url {| method := Some verb; headers := None;
                                      body := data |}) s n in
  requests out
  = [{| req_shape := T;
        req_url := base +:+ (if String.prefix "/" path then path else "/" +:+ path);
        req_init := {| method := Some verb;
                       headers := Some {[ "Content-Type" := "application/json" ]};
                       body := data |} |}].
Proof.
  cbn. unfold defaultOptions, spread_options, spread_headers. cbn.
  destruct data; on_reply; reflexivity.
Qed.

(** X13: each transport helper sends one request with its own verb, the
    JSON content type as its only header, and the body it was given
    ([apiGet] and [apiDelete] send none), to the base URL followed by the
    path, which gets a leading slash when it has none; the base URL is
    "/api" when the environment gives none or an empty one.  So a path
    with and without its leading slash is the same request. *)
Theorem helpers_send_json (w : World) (T : Shape) (path : string) (s : StoreState)
    (n : nat) :
  let base := match runtime w n _ NEXT_PUBLIC_API_BASE with
              | Some b => if String.eqb b "" then "/api" else b
              | None => "/api"
              end in
  let request verb data :=
    [{| req_shape := T;
        req_url := base +:+ (if String.prefix "/" path then path else "/" +:+ path);
        req_init := {| method := Some verb;
                       headers := Some {[ "Content-Type" := "application/json" ]};
                       body := data |} |}] in
  requests (run w (apiGet T path) s n) = request "GET" None /\
  requests (run w (apiDelete T path) s n) = request "DELETE" None /\
  (forall data, requests (run w (apiPost T path data) s n) = request "POST" data) /\
  (forall data, requests (run w (apiPut T path data) s n) = request "PUT" data) /\
  requests (run w (apiGet T (if String.prefix "/" path then path else "/" +:+ path)) s n)
  = request "GET" None.
Proof.
  intros base request. subst base request. cbn beta.
  split; [exact (helper_request w T path "GET" None s n)|].
  split; [exact (helper_request w T path "DELETE" None s n)|].
  split; [intros data; exact (helper_request w T path "POST" data s n)|].
  split; [intros data; exact (helper_request w T path "PUT" data s n)|].
  destruct (String.prefix "/" path) eqn:Hslash.
  - pose proof (helper_request w T path "GET" None s n) as H. cbn zeta in H.
    by rewrite Hslash in H.
  - pose proof (helper_request w T ("/" +:+ path) "GET" None s n) as H. cbn zeta in H.
    assert (Hadded : String.prefix "/" ("/" +:+ path) = true)
      by (cbn; by destruct path).
    by rewrite Hadded in H.
Qed.

(** ** The reading adapters *)

Lemma leading_slash (p q : string) : String.prefix "/" (String "/" p +:+ q) = true.
Proof.
  change (String "/" p +:+ q) with (String "/" (p +:+ q)). cbn. by destruct (p +:+ q).
Qed.

(** X14: [getAudit] and [getChatHistory] never reject and leave the store
    alone: each sends one [GET] and resolves with the data delivered, or
    with the empty list when the request fails in any way, after logging.
    Without a date range and without train ids (an empty list of ids
    counts as none, and the other filters are not looked at) [getAudit]
    asks for "/audit" with no query string; [getChatHistory] puts the
    session id into the path as it is. *)
Theorem reading_adapters_fail_soft (w : World) (s : StoreState) (n : nat) :
  let base := match runtime w n _ NEXT_PUBLIC_API_BASE with
              | Some b => if String.eqb b "" then "/api" else b
              | None => "/api"
              end in
  let get := {| method := Some "GET";
                headers := Some {[ "Content-Type" := "application/json" ]};
                body := None |} in
  (forall filters,
     let out := run w (auditService.getAudit filters) s n in
     exists url,
       requests out = [{| req_shape := AuditLogsT; req_url := url; req_init := get |}] /\
       settled out = inr (fetched (network w (1 + n) AuditLogsT url get) []) /\
       store out = s /\ commits out = [] /\
       (is_Some (delivered (network w (1 + n) AuditLogsT url get)) \/
        last (logged out) = Some "Failed to get audit logs:") /\
       (filters ≫= dateRange = None ->
        default [] (filters ≫= filter_trainIds) = [] ->
        url = base +:+ "/audit")) /\
  (forall sessionId,
     let out := run w (chatbotService.getChatHistory sessionId) s n in
     let url := base +:+ "/chat/history/" +:+ sessionId in
     requests out = [{| req_shape := ChatT; req_url := url; req_init := get |}] /\
     settled out = inr (fetched (network w (1 + n) ChatT url get) []) /\
     store out = s /\ commits out = []).
Proof.
  intros base get. subst base get. unfold fetched. split.
  - intros filters. cbn. unfold defaultOptions, spread_options, spread_headers. cbn.
    rewrite leading_slash. eexists. split; [on_reply; reflexivity|].
    on_reply_eq Hreply; (split; [reflexivity|]); do 2 (split; [reflexivity|]);
      (split; [first [by left; eexists | by right]|]).
    all: intros Hrange Hids; rewrite Hrange; destruct (filters ≫= filter_trainIds) as [[|]|];
      cbn in Hids; try discriminate; reflexivity.
  - intros sessionId. cbn. unfold defaultOptions, spread_options, spread_headers. cbn.
    rewrite leading_slash. on_reply; auto.
Qed.

(** ** Predictions are asked for trains of the store *)

Lemma sublist_map_filter {A B} (f : A -> B) (p : A -> bool) (l : list A) :
  map f (List.filter p l) `sublist_of` map f l.
Proof.
  induction l as [|x l IH]; cbn; [constructor|].
  destruct (p x); cbn; by constructor.
Qed.

(** X15: [fetchPredictions] sends one request, whose ids are the ids of the
    store's trains, in the store's order, restricted to the requested ids
    when ids are given: an id that no train of the store has is dropped
    without notice, and the request is sent even when no id is left. *)
Theorem predictions_asked_for_store_trains (w : World) (trainIds : option (list string))
    (s : StoreState) (n : nat) :
  let out := run w (useStore.fetchPredictions trainIds) s n in
  exists url asked sent,
    requests out
    = [{| req_shape := PredictionsT; req_url := url;
          req_init := {| method := Some "POST";
                         headers := Some {[ "Content-Type" := "application/json" ]};
                         body := Some (PredictionRequest asked sent) |} |}] /\
    asked `sublist_of` map train_id (trains s) /\
    (forall id, id ∈ asked <->
                id ∈ map train_id (trains s) /\
                match trainIds with Some ids => id ∈ ids | None => True end).
Proof.
  cbn. unfold defaultOptions, spread_options, spread_headers. cbn.
  do 3 eexists. split; [on_reply; reflexivity|].
  destruct trainIds as [ids|].
  - split; [apply sublist_map_filter|]. intros id.
    rewrite !list_elem_of_In, !in_map_iff. split.
    + intros (t & <- & Ht). apply filter_In in Ht as [Ht Hid].
      split; [by exists t|]. apply existsb_exists in Hid as (id' & Hin & Heq).
      apply String.eqb_eq in Heq. rewrite Heq. exact Hin.
    + intros [(t & <- & Ht) Hid]. exists t. split; [done|].
      apply filter_In. split; [done|]. apply existsb_exists.
      exists (train_id t). split; [exact Hid|apply String.eqb_refl].
  - split; [reflexivity|]. tauto.
Qed.

(** ** The audit endpoint: validation and capacity *)

(** A body with an action and an actor is stored under the id it carries. *)
Lemma POST_valid (storage : list AuditLog) (entry : AuditBody) (c : auditRoute.Clock) :
  auditRoute.truthy (body_action entry) = true ->
  auditRoute.truthy (body_actor entry) = true ->
  exists stored rest response,
    auditRoute.POST storage (inr entry) c = (200%Z, inr response, stored :: rest) /\
    data response = log_id stored /\
    log_id stored = auditRoute.or_else (body_id entry) (auditRoute.generatedId c) /\
    log_action stored = default "" (body_action entry) /\
    log_actor stored = default "" (body_actor entry) /\
    metadata response
    = Some (JObj [("logId", JStr (log_id stored));
                  ("totalLogs", JNum (inject_Z (Z.of_nat (length (stored :: rest)))))]).
Proof.
  intros Ha Hb. unfold auditRoute.POST. rewrite Ha, Hb. cbn [negb orb].
  cbn [length]. destruct (1000 <? S (length storage))%nat;
    do 3 eexists; (split; [reflexivity|]); cbn; auto 10.
Qed.

(** X16: [POST /audit] answers 200 exactly for a body that is an object
    with a non-empty action and a non-empty actor, 500 exactly for a body
    that does not parse or that is [null] (reading its action throws), and
    400 otherwise; an answer other than 200 carries an error and leaves the
    storage as it was, an answer 200 reports as [totalLogs] the number of
    entries stored after the call. *)
Theorem audit_POST_validates (storage : list AuditLog) (raw : JsError + JsonBody)
    (c : auditRoute.Clock) :
  let request := read_body raw in
  let status := (auditRoute.POST storage request c).1.1 in
  let reply := (auditRoute.POST storage request c).1.2 in
  let storage' := (auditRoute.POST storage request c).2 in
  (status = 200 \/ status = 400 \/ status = 500)%Z /\
  (status = 200%Z <->
   exists entry, raw = inr (BodyObject entry) /\
                 auditRoute.truthy (body_action entry) = true /\
                 auditRoute.truthy (body_actor entry) = true) /\
  (status = 500%Z <-> (exists e, raw = inl e) \/ raw = inr BodyNull) /\
  match reply with
  | inl err => status <> 200%Z /\ storage' = storage /\ is_Some (auditRoute.err_code err)
  | inr response =>
      status = 200%Z /\
      (metadata response ≫= json_field "totalLogs")
      = Some (JNum (inject_Z (Z.of_nat (length storage'))))
  end.
Proof.
  assert (Hthrown : forall message,
            let request := inl (Error message) in
            let status := (auditRoute.POST storage request c).1.1 in
            let reply := (auditRoute.POST storage request c).1.2 in
            let storage' := (auditRoute.POST storage request c).2 in
            status = 500%Z /\
            match reply with
            | inl err => status <> 200%Z /\ storage' = storage /\
                         is_Some (auditRoute.err_code err)
            | inr response => False
            end).
  { intros message. cbn. split; [reflexivity|]. split; [discriminate|].
    split; [reflexivity|by eexists]. }
  assert (Hread : forall entry : AuditBody,
            let request := inr entry in
            let status := (auditRoute.POST storage request c).1.1 in
            let reply := (auditRoute.POST storage request c).1.2 in
            let storage' := (auditRoute.POST storage request c).2 in
            (status = 200%Z <->
             auditRoute.truthy (body_action entry) = true /\
             auditRoute.truthy (body_actor entry) = true) /\
            (status = 200 \/ status = 400)%Z /\
            match reply with
            | inl err => status <> 200%Z /\ storage' = storage /\
                         is_Some (auditRoute.err_code err)
            | inr response =>
                status = 200%Z /\
                (metadata response ≫= json_field "totalLogs")
                = Some (JNum (inject_Z (Z.of_nat (length storage'))))
            end).
  { intros entry.
    destruct (auditRoute.truthy (body_action entry)) eqn:Ha;
      [destruct (auditRoute.truthy (body_actor entry)) eqn:Hb|].
    - destruct (POST_valid storage entry c Ha Hb)
        as (stored & rest & response & HP & _ & _ & _ & _ & Hmeta).
      cbn zeta. rewrite HP. cbn [fst snd]. split; [done|]. split; [by left|].
      split; [reflexivity|]. by rewrite Hmeta.
    - cbn zeta. unfold auditRoute.POST. rewrite Ha, Hb. cbn.
      split; [split; [discriminate|intros [_ ?]; discriminate]|]. split; [by right|].
      split; [discriminate|]. split; [reflexivity|by eexists].
    - cbn zeta. unfold auditRoute.POST. rewrite Ha. cbn.
      split; [split; [discriminate|intros [? _]; discriminate]|]. split; [by right|].
      split; [discriminate|]. split; [reflexivity|by eexists]. }
  destruct raw as [[message]|[|entry|]]; cbn [read_body].
  - destruct (Hthrown message) as [H500 Hreply]. cbn zeta in *.
    rewrite H500. destruct (auditRoute.POST storage _ c).1.2 as [err|response]; [|done].
    split; [auto|]. split; [split; [discriminate|by intros (? & ? & _)]|].
    split; [split; eauto|]. rewrite H500 in Hreply. exact Hreply.
  - destruct (Hthrown "Cannot read properties of null (reading 'action')")
      as [H500 Hreply]. cbn zeta in *.
    rewrite H500. destruct (auditRoute.POST storage _ c).1.2 as [err|response]; [|done].
    split; [auto|]. split; [split; [discriminate|by intros (? & ? & _)]|].
    split; [split; auto|]. rewrite H500 in Hreply. exact Hreply.
  - destruct (Hread entry) as (H200 & Hstatus & Hreply). cbn zeta in *.
    split; [tauto|]. split.
    + rewrite H200. split; [eauto|]. by intros (? & [= <-] & ?).
    + split; [|exact Hreply]. split.
      * intros H500. rewrite H500 in Hstatus. by destruct Hstatus.
      * intros [(? & ?)|?]; discriminate.
  - match goal with |- context [auditRoute.POST storage (inr ?b) c] =>
      destruct (Hread b) as (H200 & Hstatus & Hreply) end. cbn zeta in *.
    split; [tauto|]. split.
    + rewrite H200. split; [by intros [? _]|]. by intros (? & ? & _).
    + split; [|exact Hreply]. split.
      * intros H500. rewrite H500 in Hstatus. by destruct Hstatus.
      * intros [(? & ?)|?]; discriminate.
Qed.

(** X17: the storage of the audit endpoint never holds more than 1000
    entries: a storage within the capacity stays within it through any
    sequence of posts, and a post that is accepted brings even an
    overlong storage down to the capacity. *)
Theorem audit_storage_capacity (storage : list AuditLog)
    (posts : list ((JsError + AuditBody) * auditRoute.Clock)) :
  length storage <= 1000 ->
  length (post_all storage posts) <= 1000 /\
  forall (longer : list AuditLog) entry c,
    auditRoute.truthy (body_action entry) = true ->
    auditRoute.truthy (body_actor entry) = true ->
    length (auditRoute.POST longer (inr entry) c).2 <= 1000.
Proof.
  intros Hroom. split.
  - revert storage Hroom. induction posts as [|[request c] posts IH]; intros storage Hroom;
      cbn [post_all]; [exact Hroom|].
    apply IH. destruct (POST_storage storage request c) as [->|[entry ->]]; [exact Hroom|].
    rewrite length_take. lia.
  - intros longer entry c Ha Hb. unfold auditRoute.POST. rewrite Ha, Hb. cbn [negb orb snd].
    destruct (1000 <? length (_ :: longer))%nat eqn:Hlen.
    + rewrite length_take. lia.
    + by apply Nat.ltb_ge in Hlen.
Qed.

Lemma audit_storage_capacity_witness :
  length (post_all fullStorage twoPosts) <= 1000.
Proof.
  assert (Hroom : length fullStorage <= 1000)
    by (unfold fullStorage; rewrite length_map, length_seq; lia).
  exact (proj1 (audit_storage_capacity fullStorage twoPosts Hroom)).
Defined.

(** X18: [POST /audit] does not look for the id among the stored entries:
    the same entry posted twice is stored twice, under the same id. *)
Theorem audit_POST_keeps_duplicates (storage : list AuditLog) (entry : AuditBody)
    (c c' : auditRoute.Clock) :
  auditRoute.truthy (body_action entry) = true ->
  auditRoute.truthy (body_actor entry) = true ->
  auditRoute.truthy (body_id entry) = true ->
  length storage + 2 <= 1000 ->
  exists first second,
    post_all storage [(inr entry, c); (inr entry, c')] = second :: first :: storage /\
    Some (log_id first) = body_id entry /\
    Some (log_id second) = body_id entry.
Proof.
  intros Haction Hactor Hid Hroom. cbn [post_all].
  unfold auditRoute.POST at 2. rewrite Haction, Hactor. cbn [negb orb snd length].
  destruct (Nat.ltb_spec 1000 (S (length storage))) as [Hfull|_]; [lia|].
  unfold auditRoute.POST. rewrite Haction, Hactor. cbn [negb orb snd length].
  destruct (Nat.ltb_spec 1000 (S (S (length storage)))) as [Hfull|_]; [lia|].
  do 2 eexists. split; [reflexivity|]. cbn.
  destruct (body_id entry) as [id|]; [|discriminate]. cbn in Hid |- *.
  destruct (String.eqb id ""); [discriminate|]. by split.
Qed.

Lemma audit_POST_keeps_duplicates_witness :
  map log_id (post_all [] twoPosts)
  = ["audit-1700000000000-k3j5h2lq9"; "audit-1700000000000-k3j5h2lq9"].
Proof.
  destruct (audit_POST_keeps_duplicates [] newEntry serverClock serverClock
              eq_refl eq_refl eq_refl)
    as (first & second & Hposts & Hfirst & Hsecond); [cbn; lia|].
  unfold twoPosts. rewrite Hposts. cbn. injection Hfirst as ->. injection Hsecond as ->. reflexivity.
Defined.

(** ** The store's audit entries at the endpoint *)

(** The entries the store posts are drafts of its own, stamped by
    [postAudit]; such an entry is accepted and stored under its id. *)
Lemma store_draft_is_stored (storage : list AuditLog) (c : auditRoute.Clock)
    (req : Request) :
  store_draft req -> stored_as_posted storage c req.
Proof.
  intros Hdraft entry Hbody.
  destruct (Hdraft entry Hbody) as (Hshape & draft & id & iso & -> & Haction & Hactor).
  split; [exact Hshape|].
  destruct (POST_valid storage (auditService.audit_body (stamp draft ("audit-" +:+ id) iso)) c)
    as (stored & rest & response & HP & Hdata & Hid & _ & Hstored & _).
  - cbn. by destruct (String.eqb_spec (draft_action draft) "").
  - cbn. by rewrite Hactor.
  - exists stored, rest, response. split; [exact HP|].
    cbn in Hid, Hstored. split; [cbn; by rewrite Hid|]. split; [exact Hdata|].
    by rewrite Hstored.
Qed.

Lemma sent_body (T : Shape) (url : string) (options : RequestInit) :
  body (req_init {| req_shape := T; req_url := url; req_init := defaultOptions options |})
  = body options.
Proof. by destruct options as [m h [b|]]. Qed.

(** Goes through the requests of a run, each an entry of the store or no
    audit entry at all. *)
Ltac store_drafts :=
  repeat first
    [ apply Forall_nil_2
    | apply Forall_cons_2;
      [ apply store_draft_is_stored; intros entry; rewrite sent_body; intros Hbody;
        first [ discriminate Hbody
              | injection Hbody as <-;
                split; [reflexivity|]; do 3 eexists; split; [reflexivity|]; by split ]
      | ] ].

(** X19: every audit entry the store posts, for a decision or for a
    simulation, passes the endpoint's validation: handled by [POST /audit]
    it is answered 200 and stored at the head, under the id the client
    gave it and with "System User" as its actor.  The last request of a
    decision or a simulation that resolved is such an entry; [addAuditLog]
    sends nothing. *)
Theorem store_entries_pass_validation (w : World) (o : AuditOp) (s : StoreState) (n : nat)
    (storage : list AuditLog) (c : auditRoute.Clock) :
  let out := run w (audit_op o) s n in
  Forall (stored_as_posted storage c) (requests out) /\
  (settled out = inr tt ->
   match o with
   | AddAuditLog _ => requests out = []
   | _ => exists req entry,
            last (requests out) = Some req /\
            body (req_init req) = Some (AuditEntry entry)
   end).
Proof.
  destruct o as [log|[recId|recId altId|recId reason]|payload]; cbn [audit_op decide_].
  - cbn. split; [constructor|reflexivity].
  - unfold useStore.acceptRecommendation. cbn [run bind get].
    destruct (find _ (recommendations s)) as [r|]; cbn; [on_reply|];
      (split; [store_drafts|intros [=]; try (do 2 eexists; split; reflexivity)]).
  - unfold useStore.overrideRecommendation. cbn [run bind get].
    destruct (find _ (recommendations s)) as [r|]; cbn;
      [destruct (find _ (rec_alternatives r)); cbn; [on_reply|]|];
      (split; [store_drafts|intros [=]; try (do 2 eexists; split; reflexivity)]).
  - unfold useStore.rejectRecommendation. cbn [run bind get].
    destruct (find _ (recommendations s)) as [r|]; cbn; [on_reply|];
      (split; [store_drafts|intros [=]; try (do 2 eexists; split; reflexivity)]).
  - cbn. on_reply; on_reply;
      (split; [store_drafts|intros [=]; try (do 2 eexists; split; reflexivity)]).
Qed.

(** ** The health summary of the KPI endpoint *)

Lemma statusCounts_counted (st : KpiStatus) (kpis : list KPI) :
  default 0 (kpisRoute.statusCounts kpis !! kpisRoute.status_key st) = counted st kpis.
Proof.
  unfold kpisRoute.statusCounts, counted.
  assert (H : forall acc : gmap string nat,
            default 0 (fold_left
                         (fun counts kpi =>
                            let key := kpisRoute.status_key (default Good (kpi_status kpi)) in
                            <[key := default 0 (counts !! key) + 1]> counts)
                         kpis acc !! kpisRoute.status_key st)
            = default 0 (acc !! kpisRoute.status_key st) +
              length (List.filter
                        (fun k => String.eqb
                                    (kpisRoute.status_key (default Good (kpi_status k)))
                                    (kpisRoute.status_key st))
                        kpis)).
  { induction kpis as [|k kpis IH]; intros acc; cbn [fold_left List.filter length]; [lia|].
    rewrite IH. cbn zeta.
    destruct (String.eqb_spec (kpisRoute.status_key (default Good (kpi_status k)))
                (kpisRoute.status_key st)) as [Heq|Hne].
    - rewrite Heq, lookup_insert_eq. cbn. lia.
    - by rewrite lookup_insert_ne. }
  rewrite H, lookup_empty. reflexivity.
Qed.

Lemma exceeds_percent (counts : gmap string nat) (key : string) (total : nat)
    (a : Z) (b : positive) :
  total <> 0 ->
  kpisRoute.exceeds (kpisRoute.percent counts key total) (a # b)
  = (a * Z.of_nat total <? Z.of_nat (default 0%nat (counts !! key)) * Z.pos b)%Z.
Proof.
  intros Htotal. unfold kpisRoute.exceeds, kpisRoute.percent.
  destruct total as [|t]; cbn [Nat.eqb]; [done|].
  - apply eq_true_iff_eq. rewrite negb_true_iff, Z.ltb_lt, <- not_true_iff_false, Qle_bool_iff.
    change (Z.of_nat (S t)) with (Z.pos (Pos.of_succ_nat t)).
    unfold Qle, Qdiv, Qmult, Qinv, inject_Z. cbn. lia.
Qed.

Lemma counted_partition (kpis : list KPI) :
  counted Critical kpis + counted Warning kpis + counted Good kpis = length kpis.
Proof.
  unfold counted. induction kpis as [|k kpis IH]; [reflexivity|].
  cbn [kpisRoute.status_key] in IH.
  cbn [List.filter length]. destruct (kpi_status k) as [[]|]; cbn; lia.
Qed.

(** X20: [calculateSystemHealth] in whole numbers, with every KPI counted
    once and a KPI without status counted as good.  The health is critical
    exactly when more than 30% of the KPIs are critical; otherwise warning
    exactly when some KPI is critical or more than half are warnings;
    otherwise excellent exactly when more than 80% are good, and good in
    the remaining cases, which include the empty list. *)
Theorem system_health_thresholds (kpis : list KPI) :
  let total := length kpis in
  let crit := counted Critical kpis in
  let warn := counted Warning kpis in
  let fine := counted Good kpis in
  crit + warn + fine = total /\
  (kpisRoute.calculateSystemHealth kpis = kpisRoute.critical <-> 3 * total < 10 * crit) /\
  (kpisRoute.calculateSystemHealth kpis = kpisRoute.warning <->
   10 * crit <= 3 * total /\ (0 < crit \/ total < 2 * warn)) /\
  (kpisRoute.calculateSystemHealth kpis = kpisRoute.excellent <->
   crit = 0 /\ 2 * warn <= total /\ 8 * total < 10 * fine) /\
  (kpisRoute.calculateSystemHealth kpis = kpisRoute.good <->
   crit = 0 /\ 2 * warn <= total /\ 10 * fine <= 8 * total).
Proof.
  intros total crit warn fine.
  pose proof (counted_partition kpis) as Hsum. fold total crit warn fine in Hsum.
  split; [exact Hsum|].
  destruct (Nat.eq_dec total 0) as [Hzero|Hsome].
  - assert (kpis = []) as -> by (by destruct kpis).
    cbn. repeat split; intros; try discriminate; try lia.
  - unfold kpisRoute.calculateSystemHealth. fold total.
    rewrite !exceeds_percent by exact Hsome.
    pose proof (statusCounts_counted Critical kpis) as Hc.
    pose proof (statusCounts_counted Warning kpis) as Hw.
    pose proof (statusCounts_counted Good kpis) as Hg.
    cbn [kpisRoute.status_key] in Hc, Hw, Hg. rewrite Hc, Hw, Hg.
    fold crit warn fine.
    repeat match goal with
           | |- context [(?a <? ?b)%Z] => destruct (Z.ltb_spec a b)
           end; cbn [orb];
      repeat split; intros; try discriminate; try lia.
Qed.

(** ** The handlers of the recommendations page *)

(** X21: the page's handlers swallow every failure of the store action
    they await: they always resolve, leave the store as the action left it
    and send the requests the action sent, and a failure shows only as one
    more line on the console.  [handleReject] never passes an empty reason,
    it passes "No reason provided" instead; it clears the selection and the
    reason typed when the action resolved and keeps them when it failed. *)
Theorem page_handlers_swallow_failures (w : World) (recId altId : string)
    (page : recommendationsPage.PageState) (s : StoreState) (n : nat) :
  let swallowed {A B} (handler : Run A) (action : Run B) (line : string) :=
    store handler = store action /\
    commits handler = commits action /\
    requests handler = requests action /\
    logged handler
    = logged action ++ (if settled action is inl _ then [line] else []) in
  let reason := if String.eqb (recommendationsPage.rejectReason page) ""
                then "No reason provided"
                else recommendationsPage.rejectReason page in
  let accept := run w (recommendationsPage.handleAccept recId) s n in
  let override := run w (recommendationsPage.handleOverride recId altId) s n in
  let reject := run w (recommendationsPage.handleReject page recId) s n in
  let rejected := run w (useStore.rejectRecommendation recId reason) s n in
  settled accept = inr tt /\
  swallowed accept (run w (useStore.acceptRecommendation recId) s n)
            "Failed to accept recommendation:" /\
  settled override = inr tt /\
  swallowed override (run w (useStore.overrideRecommendation recId altId) s n)
            "Failed to override recommendation:" /\
  reason <> "" /\
  settled reject
  = inr (if settled rejected is inr _
         then {| recommendationsPage.selectedRec := None;
                 recommendationsPage.rejectReason := "" |}
         else page) /\
  swallowed reject rejected "Failed to reject recommendation:".
Proof.
  intros swallowed reason accept override reject rejected.
  subst swallowed accept override reject rejected. cbn beta.
  unfold recommendationsPage.handleAccept, recommendationsPage.handleOverride,
    recommendationsPage.handleReject.
  fold reason. rewrite !run_try_catch, run_bind. unfold or_catch, and_then.
  split; [|split; [|split; [|split; [|split; [|split]]]]].
  - destruct (settled (run w (useStore.acceptRecommendation recId) s n)) as [e|[]] eqn:E;
      [reflexivity|exact E].
  - destruct (settled (run w (useStore.acceptRecommendation recId) s n)) as [e|[]];
      cbn; rewrite ?app_nil_r; auto.
  - destruct (settled (run w (useStore.overrideRecommendation recId altId) s n))
      as [e|[]] eqn:E; [reflexivity|exact E].
  - destruct (settled (run w (useStore.overrideRecommendation recId altId) s n)) as [e|[]];
      cbn; rewrite ?app_nil_r; auto.
  - subst reason. by destruct (String.eqb_spec (recommendationsPage.rejectReason page) "").
  - destruct (settled (run w (useStore.rejectRecommendation recId reason) s n)) as [e|[]];
      reflexivity.
  - destruct (settled (run w (useStore.rejectRecommendation recId reason) s n)) as [e|[]];
      cbn; rewrite ?app_nil_r; auto.
Qed.
